(** * tienda-backend: authentication flow and product routes

    A shallow embedding of [src/auth.py], [src/backend/models.py] and the
    admin and product routes of [src/server.py].

    - Python dicts (JWT payloads, pydantic dumps, MongoDB documents) are
      finite maps from field names to JSON-like values.
    - The [products] collection is a list of documents in natural order;
      every route body takes the collection and returns the new one.
    - Clock readings ([datetime.utcnow()]), in microseconds, generated
      uuids and ObjectIds are explicit arguments of the operation that
      obtains them.
    - The third-party libraries (the [jwt] module, pydantic's validators,
      [datetime.isoformat]) are interfaces (type classes); every theorem
      holds for each implementation of the interface, and a small reference
      implementation is used to evaluate the code on concrete inputs. *)

From Stdlib Require Import ZArith QArith Ascii.
From stdpp Require Import base option strings pretty list gmap.

Local Open Scope Z_scope.

(** ** Values and dictionaries *)

(** [datetime] values are instants and [timedelta] values durations,
    counted in microseconds, the resolution of both Python types. [second]
    is the number of microseconds of a second, and [seconds n] is [n]
    whole seconds. *)
Abbreviation datetime := Z (only parsing).
Abbreviation timedelta := Z (only parsing).

Definition second : Z := 1000000.
Definition seconds (n : Z) : Z := n * second.

Inductive value :=
  | VNull
  | VBool (b : bool)
  | VInt (n : Z)
  | VFloat (q : Q)
  | VStr (s : string)
  | VList (l : list string)
  | VDate (t : datetime)
  | VOid (n : N).

#[global] Instance Q_eq_dec : EqDecision Q.
Proof. solve_decision. Defined.

#[global] Instance value_eq_dec : EqDecision value.
Proof. solve_decision. Defined.

Abbreviation dict := (gmap string value).

(** Truth value of an object that is [None] or a dict: [None] and the empty
    dict are false. *)
Definition truthy (o : option dict) : bool :=
  match o with
  | None => false
  | Some d => negb (bool_decide (d = ∅))
  end.

(** ** Failures *)

(** [HTTPException(status_code, detail)], and the exceptions no route
    catches ([ServerError], with the name of the exception), which the
    framework answers with status 500. *)
Inductive failure :=
  | HTTPException (status_code : Z) (detail : string)
  | ServerError (exc : string).

Definition status (e : failure) : Z :=
  match e with
  | HTTPException c _ => c
  | ServerError _ => 500
  end.

Abbreviation result A := (failure + A)%type.

(** ** The [jwt] module *)

Module Jwt.

Inductive error :=
  | ExpiredSignatureError
  | InvalidSignatureError
  | DecodeError
  | ImmatureSignatureError
  | InvalidIssuedAtError
  | InvalidAudienceError.

(** What the embedding needs of the compact serialisation and of the HS256
    signature: a token is built from a claim set and a signature, and
    reading a token back gives the two parts it was built from. [parse]
    fails on a malformed token. [numeric] reads a claim as a numeric date;
    an integer is read as itself, and what else is accepted is left to the
    implementation. *)
Class Lib := {
  token : Type;
  hs256 : string → dict → string;
  compact : dict → string → token;
  parse : token → option (dict * string);
  numeric : value → option Z;
  parse_compact c s : parse (compact c s) = Some (c, s);
  numeric_int n : numeric (VInt n) = Some n;
}.

Section ops.
Context `{Lib}.

(** A [datetime] under one of the registered date claims is written as its
    numeric date: the whole seconds of the instant, the microseconds being
    dropped. *)
Definition numeric_date (k : string) (payload : dict) : dict :=
  match payload !! k with
  | Some (VDate t) => <[k := VInt (t / second)]> payload
  | _ => payload
  end.

Definition encode (payload : dict) (key : string) : token :=
  let claims :=
    numeric_date "nbf" (numeric_date "iat" (numeric_date "exp" payload)) in
  compact claims (hs256 key claims).

(** Truth value of a claim. *)
Definition claim_truthy (v : value) : bool :=
  match v with
  | VNull => false
  | VBool b => b
  | VInt n => negb (n =? 0)
  | VFloat q => negb (Qnum q =? 0)
  | VStr s => negb (bool_decide (s = ""))
  | VList l => negb (bool_decide (l = []))
  | VDate _ | VOid _ => true
  end.

(** The checks of a date claim that must not lie in the future ([iat],
    [nbf]): the claim, when present, reads as a numeric date ([bad]
    otherwise) that is not after the current time. *)
Definition validate_not_future (k : string) (bad : error) (now : datetime)
    (claims : dict) : option error :=
  match claims !! k with
  | None => None
  | Some v =>
      match numeric v with
      | None => Some bad
      | Some t =>
          if bool_decide (now < seconds t) then Some ImmatureSignatureError
          else None
      end
  end.

(** A token is expired when [exp <= now]. *)
Definition validate_exp (now : datetime) (claims : dict) : option error :=
  match claims !! "exp" with
  | None => None
  | Some v =>
      match numeric v with
      | None => Some DecodeError
      | Some exp =>
          if bool_decide (seconds exp ≤ now) then Some ExpiredSignatureError
          else None
      end
  end.

(** No audience is given to [decode]: a token with an audience is
    refused. *)
Definition validate_aud (claims : dict) : option error :=
  match claims !! "aud" with
  | None => None
  | Some v => if claim_truthy v then Some InvalidAudienceError else None
  end.

(** The claims are validated in this order, with the default options and
    no leeway; the first failure is raised. *)
Definition validate_claims (now : datetime) (claims : dict) : option error :=
  match validate_not_future "iat" InvalidIssuedAtError now claims with
  | Some e => Some e
  | None =>
      match validate_not_future "nbf" DecodeError now claims with
      | Some e => Some e
      | None =>
          match validate_exp now claims with
          | Some e => Some e
          | None => validate_aud claims
          end
      end
  end.

(** [decode(token, key, algorithms=["HS256"])] at time [now]: the signature
    is checked first, then the claims. *)
Definition decode (now : datetime) (tok : token) (key : string)
  : error + dict :=
  match parse tok with
  | None => inl DecodeError
  | Some (claims, sig) =>
      if bool_decide (sig = hs256 key claims) then
        match validate_claims now claims with
        | Some e => inl e
        | None => inr claims
        end
      else inl InvalidSignatureError
  end.

End ops.

End Jwt.

(** ** [auth.py] *)

Section auth.
Context `{Jwt.Lib}.
(** [os.environ] *)
Variable environ : gmap string string.

Definition environ_get (k dflt : string) : string :=
  default dflt (environ !! k).

Definition ADMIN_USERNAME : string := environ_get "ADMIN_USERNAME" "admin".
Definition ADMIN_PASSWORD : string := environ_get "ADMIN_PASSWORD" "admin123".
Definition SECRET_KEY : string :=
  environ_get "JWT_SECRET_KEY" "your-secret-key-change-in-production".

Definition verify_admin_credentials (username password : string) : bool :=
  bool_decide (username = ADMIN_USERNAME)
  && bool_decide (password = ADMIN_PASSWORD).

Definition timedelta_hours (h : Z) : timedelta := seconds (h * 3600).

(** Truth value of [expires_delta]: [None] and [timedelta(0)] are false. *)
Definition timedelta_truthy (d : option timedelta) : bool :=
  match d with
  | None => false
  | Some d => negb (d =? 0)
  end.

(** [now] is the reading of [datetime.utcnow()]. *)
Definition create_access_token
    (data : dict) (expires_delta : option timedelta) (now : datetime)
  : Jwt.token :=
  let to_encode := data in
  let expire :=
    if timedelta_truthy expires_delta
    then now + default 0 expires_delta
    else now + timedelta_hours 24 in
  let to_encode := <["exp" := VDate expire]> to_encode in
  Jwt.encode to_encode SECRET_KEY.

(** The expiration that [create_access_token] embeds. *)
Definition expiration (expires_delta : option timedelta) (now : datetime)
  : datetime :=
  if timedelta_truthy expires_delta
  then now + default 0 expires_delta
  else now + timedelta_hours 24.

(** The instant from which a token with the expiration [expire] is refused
    as expired: the start of the second in which [expire] falls. *)
Definition expires_at (expire : datetime) : datetime :=
  seconds (expire / second).

(** [payload.get(k)] is [None] for a missing key and for a JSON null. *)
Definition dict_get (k : string) (d : dict) : option value :=
  match d !! k with
  | Some VNull => None
  | o => o
  end.

(** What the [try] body of [verify_token] raises: an error of [jwt.decode],
    or the [HTTPException] for a missing subject. *)
Inductive raised :=
  | RaisedJwt (e : Jwt.error)
  | RaisedHTTP (e : failure).

(** The [except] clauses, tried in order. An expired signature matches the
    first. For anything else the second clause is evaluated, and the [jwt]
    module has no attribute [JWTError]: the clause itself raises
    [AttributeError], which nothing catches. *)
Definition except_clauses (r : raised) : failure :=
  match r with
  | RaisedJwt Jwt.ExpiredSignatureError => HTTPException 403 "Token expirado"
  | _ => ServerError "AttributeError"
  end.

(** [now] is the time at which [jwt.decode] runs. *)
Definition verify_token (now : datetime) (credentials : Jwt.token)
  : result value :=
  match Jwt.decode now credentials SECRET_KEY with
  | inr payload =>
      match dict_get "sub" payload with
      | None =>
          inl (except_clauses
                 (RaisedHTTP (HTTPException 403 "Token inválido")))
      | Some username => inr username
      end
  | inl e => inl (except_clauses (RaisedJwt e))
  end.

(** The two failures that [verify_token] is written to answer with, under
    the names the specification gives them. *)
Definition TokenExpired : failure := HTTPException 403 "Token expirado".
Definition TokenInvalid : failure := HTTPException 403 "Token inválido".

(** [security = HTTPBearer()], applied to the [Authorization] header split
    into scheme and credentials: the request is refused with 403 when the
    header is missing or its scheme is not [bearer]. *)
Definition ascii_lower (c : Ascii.ascii) : Ascii.ascii :=
  let n := Ascii.N_of_ascii c in
  if ((65 <=? n) && (n <=? 90))%N then Ascii.ascii_of_N (n + 32) else c.

Fixpoint lower (s : string) : string :=
  match s with
  | EmptyString => EmptyString
  | String c s => String (ascii_lower c) (lower s)
  end.

Definition security (authorization : option (string * Jwt.token))
  : result Jwt.token :=
  match authorization with
  | None => inl (HTTPException 403 "Not authenticated")
  | Some (scheme, credentials) =>
      if bool_decide (lower scheme = "bearer") then inr credentials
      else inl (HTTPException 403 "Invalid authentication credentials")
  end.

(** [Depends(verify_token)], itself depending on [Security(security)]: the
    dependency is solved before the route body runs, and an exception it
    raises is the response. *)
Definition Depends_verify_token {A S : Type}
    (authorization : option (string * Jwt.token)) (now : datetime)
    (body : value → S → result A * S) (st : S) : result A * S :=
  match security authorization with
  | inl e => (inl e, st)
  | inr credentials =>
      match verify_token now credentials with
      | inl e => (inl e, st)
      | inr username => body username st
      end
  end.

End auth.

(** ** pydantic *)

Module Pydantic.

(** The validators of the field types used in [models.py], and
    [datetime.isoformat]. A value of the field's own type is accepted as it
    is, [None] is refused by every field that is not [Optional], and the
    ISO text of a [datetime] is read back as that [datetime]; what other
    inputs are coerced to is left to the implementation. *)
Class Lib := {
  isoformat : datetime → string;
  validate_str : value → option string;
  validate_float : value → option Q;
  validate_int : value → option Z;
  validate_bool : value → option bool;
  validate_list_str : value → option (list string);
  validate_datetime : value → option datetime;
  validate_str_str s : validate_str (VStr s) = Some s;
  validate_str_null : validate_str VNull = None;
  validate_float_float q : validate_float (VFloat q) = Some q;
  validate_float_null : validate_float VNull = None;
  validate_int_int n : validate_int (VInt n) = Some n;
  validate_int_null : validate_int VNull = None;
  validate_bool_bool b : validate_bool (VBool b) = Some b;
  validate_bool_null : validate_bool VNull = None;
  validate_list_str_list l : validate_list_str (VList l) = Some l;
  validate_list_str_null : validate_list_str VNull = None;
  validate_datetime_date t : validate_datetime (VDate t) = Some t;
  validate_datetime_iso t : validate_datetime (VStr (isoformat t)) = Some t;
  validate_datetime_null : validate_datetime VNull = None;
}.

(** A field of a model whose fields are all [Optional[...] = None]: not
    set, or set to [None] or to a value. *)
Inductive field (A : Type) :=
  | Unset
  | Provided (v : option A).
Arguments Unset {A}.
Arguments Provided {A} v.

Section fields.
Context {A : Type}.

(** A required field. *)
Definition required (validate : value → option A) (k : string)
    (kwargs : dict) : option A :=
  kwargs !! k ≫= validate.

(** A field with a default (value or factory). *)
Definition with_default (validate : value → option A) (k : string)
    (dflt : A) (kwargs : dict) : option A :=
  match kwargs !! k with
  | None => Some dflt
  | Some v => validate v
  end.

(** An [Optional[...] = None] field. *)
Definition optional (validate : value → option A) (k : string)
    (kwargs : dict) : option (field A) :=
  match kwargs !! k with
  | None => Some Unset
  | Some VNull => Some (Provided None)
  | Some v => Provided ∘ Some <$> validate v
  end.

(** The entry of a field in [model_dump(exclude_unset=True)]. *)
Definition dump_set (inj : A → value) (k : string) (f : field A)
    (d : dict) : dict :=
  match f with
  | Unset => d
  | Provided None => <[k := VNull]> d
  | Provided (Some v) => <[k := inj v]> d
  end.

End fields.

End Pydantic.

(** ** [models.py] *)

(** The results of the default factories of [Product], called in the order
    of the fields when the field is not given. *)
Record factories := {
  uuid4 : string;
  utcnow_createdAt : datetime;
  utcnow_updatedAt : datetime;
}.

Module Product.

Record t := {
  id : string;
  name : string;
  category : string;
  price : Q;
  image : string;
  description : string;
  specs : list string;
  rating : Q;
  reviews : Z;
  featured : bool;
  affiliateLink : string;
  createdAt : datetime;
  updatedAt : datetime;
}.

Section ops.
Context `{Pydantic.Lib}.
Import Pydantic.

(** The constructor [Product], applied to a dict of keyword arguments;
    [None] is a [ValidationError]. Keys that are not fields are ignored. *)
Definition init (g : factories) (kwargs : dict) : option t :=
  id ← with_default validate_str "id" (uuid4 g) kwargs;
  name ← required validate_str "name" kwargs;
  category ← required validate_str "category" kwargs;
  price ← required validate_float "price" kwargs;
  image ← required validate_str "image" kwargs;
  description ← required validate_str "description" kwargs;
  specs ← with_default validate_list_str "specs" [] kwargs;
  rating ← with_default validate_float "rating" (4.5)%Q kwargs;
  reviews ← with_default validate_int "reviews" 0 kwargs;
  featured ← with_default validate_bool "featured" false kwargs;
  affiliateLink ← required validate_str "affiliateLink" kwargs;
  createdAt ←
    with_default validate_datetime "createdAt" (utcnow_createdAt g) kwargs;
  updatedAt ←
    with_default validate_datetime "updatedAt" (utcnow_updatedAt g) kwargs;
  Some {| id := id; name := name; category := category; price := price;
          image := image; description := description; specs := specs;
          rating := rating; reviews := reviews; featured := featured;
          affiliateLink := affiliateLink; createdAt := createdAt;
          updatedAt := updatedAt |}.

Definition model_dump (p : t) : dict :=
  <["id" := VStr (id p)]> (
  <["name" := VStr (name p)]> (
  <["category" := VStr (category p)]> (
  <["price" := VFloat (price p)]> (
  <["image" := VStr (image p)]> (
  <["description" := VStr (description p)]> (
  <["specs" := VList (specs p)]> (
  <["rating" := VFloat (rating p)]> (
  <["reviews" := VInt (reviews p)]> (
  <["featured" := VBool (featured p)]> (
  <["affiliateLink" := VStr (affiliateLink p)]> (
  <["createdAt" := VDate (createdAt p)]> (
  <["updatedAt" := VDate (updatedAt p)]> ∅)))))))))))).

End ops.

End Product.

Module ProductCreate.

Record t := {
  name : string;
  category : string;
  price : Q;
  image : string;
  description : string;
  specs : list string;
  rating : Q;
  reviews : Z;
  featured : bool;
  affiliateLink : string;
}.

Section ops.
Context `{Pydantic.Lib}.
Import Pydantic.

(** The request body validated as [ProductCreate]. *)
Definition init (kwargs : dict) : option t :=
  name ← required validate_str "name" kwargs;
  category ← required validate_str "category" kwargs;
  price ← required validate_float "price" kwargs;
  image ← required validate_str "image" kwargs;
  description ← required validate_str "description" kwargs;
  specs ← with_default validate_list_str "specs" [] kwargs;
  rating ← with_default validate_float "rating" (4.5)%Q kwargs;
  reviews ← with_default validate_int "reviews" 0 kwargs;
  featured ← with_default validate_bool "featured" false kwargs;
  affiliateLink ← required validate_str "affiliateLink" kwargs;
  Some {| name := name; category := category; price := price;
          image := image; description := description; specs := specs;
          rating := rating; reviews := reviews; featured := featured;
          affiliateLink := affiliateLink |}.

Definition model_dump (p : t) : dict :=
  <["name" := VStr (name p)]> (
  <["category" := VStr (category p)]> (
  <["price" := VFloat (price p)]> (
  <["image" := VStr (image p)]> (
  <["description" := VStr (description p)]> (
  <["specs" := VList (specs p)]> (
  <["rating" := VFloat (rating p)]> (
  <["reviews" := VInt (reviews p)]> (
  <["featured" := VBool (featured p)]> (
  <["affiliateLink" := VStr (affiliateLink p)]> ∅))))))))).

End ops.

End ProductCreate.

Module ProductUpdate.

Import Pydantic.

Record t := {
  name : field string;
  category : field string;
  price : field Q;
  image : field string;
  description : field string;
  specs : field (list string);
  rating : field Q;
  reviews : field Z;
  featured : field bool;
  affiliateLink : field string;
}.

Definition model_fields : list string :=
  ["name"; "category"; "price"; "image"; "description"; "specs"; "rating";
   "reviews"; "featured"; "affiliateLink"].

(** [ProductUpdate(price=q)]: the price and no other field. *)
Definition only_price (q : Q) : t :=
  {| name := Unset; category := Unset; price := Provided (Some q);
     image := Unset; description := Unset; specs := Unset; rating := Unset;
     reviews := Unset; featured := Unset; affiliateLink := Unset |}.

(** [ProductUpdate(name=None)]: an explicit null for the name and no other
    field. *)
Definition null_name : t :=
  {| name := Provided None; category := Unset; price := Unset;
     image := Unset; description := Unset; specs := Unset; rating := Unset;
     reviews := Unset; featured := Unset; affiliateLink := Unset |}.

Section ops.
Context `{Pydantic.Lib}.

(** The request body validated as [ProductUpdate]. *)
Definition init (kwargs : dict) : option t :=
  name ← optional validate_str "name" kwargs;
  category ← optional validate_str "category" kwargs;
  price ← optional validate_float "price" kwargs;
  image ← optional validate_str "image" kwargs;
  description ← optional validate_str "description" kwargs;
  specs ← optional validate_list_str "specs" kwargs;
  rating ← optional validate_float "rating" kwargs;
  reviews ← optional validate_int "reviews" kwargs;
  featured ← optional validate_bool "featured" kwargs;
  affiliateLink ← optional validate_str "affiliateLink" kwargs;
  Some {| name := name; category := category; price := price;
          image := image; description := description; specs := specs;
          rating := rating; reviews := reviews; featured := featured;
          affiliateLink := affiliateLink |}.

(** [model_dump(exclude_unset=True)] *)
Definition model_dump_exclude_unset (p : t) : dict :=
  dump_set VStr "name" (name p) (
  dump_set VStr "category" (category p) (
  dump_set VFloat "price" (price p) (
  dump_set VStr "image" (image p) (
  dump_set VStr "description" (description p) (
  dump_set VList "specs" (specs p) (
  dump_set VFloat "rating" (rating p) (
  dump_set VInt "reviews" (reviews p) (
  dump_set VBool "featured" (featured p) (
  dump_set VStr "affiliateLink" (affiliateLink p) ∅))))))))).

End ops.

End ProductUpdate.

(** ** The [products] collection *)

(** A collection is the list of its documents in natural order. The filter
    [{"id": product_id}] selects the documents whose [id] is that string;
    the operations on one document act on the first that matches. *)
Abbreviation collection := (list dict).

Definition matches (product_id : string) (d : dict) : Prop :=
  d !! "id" = Some (VStr product_id).

#[global] Instance matches_dec product_id d : Decision (matches product_id d).
Proof. unfold matches. apply _. Defined.

(** [find({}, {"_id": 0}).to_list(length)] *)
Definition find_to_list (length : nat) (c : collection) : list dict :=
  delete "_id" <$> take length c.

(** [find_one({"id": product_id}, {"_id": 0})] *)
Definition find_one (product_id : string) (c : collection) : option dict :=
  delete "_id" ∘ snd <$> list_find (matches product_id) c.

(** What the driver can encode: an integer is written on at most 8 bytes,
    and a document with a larger integer raises [OverflowError] before
    anything is sent to the store. *)
Definition int64 (n : Z) : Prop := - 2 ^ 63 ≤ n < 2 ^ 63.

Definition bson_value (v : value) : Prop :=
  match v with
  | VInt n => int64 n
  | _ => True
  end.

#[global] Instance bson_value_dec v : Decision (bson_value v).
Proof. destruct v; simpl; unfold int64; apply _. Defined.

Definition bson_encodable (doc : dict) : bool :=
  bool_decide (map_Forall (λ _, bson_value) doc).

(** The collection with a document appended, under the ObjectId [oid] that
    the driver generates. *)
Definition append_document (doc : dict) (oid : N) (c : collection)
  : collection :=
  c ++ [<["_id" := VOid oid]> doc].

(** The collection with the fields of [update_data] laid over the first
    document of that id. *)
Definition set_fields (product_id : string) (update_data : dict)
    (c : collection) : collection :=
  match list_find (matches product_id) c with
  | None => c
  | Some (i, d) => <[i := update_data ∪ d]> c
  end.

(** [insert_one(doc)] *)
Definition insert_one (doc : dict) (oid : N) (c : collection)
  : result collection :=
  if bson_encodable doc then inr (append_document doc oid c)
  else inl (ServerError "OverflowError").

(** [update_one({"id": product_id}, {"$set": update_data})] *)
Definition update_one (product_id : string) (update_data : dict)
    (c : collection) : result collection :=
  if bson_encodable update_data then
    inr (set_fields product_id update_data c)
  else inl (ServerError "OverflowError").

(** [delete_one({"id": product_id})], with its [deleted_count]. *)
Definition delete_one (product_id : string) (c : collection)
  : collection * Z :=
  match list_find (matches product_id) c with
  | None => (c, 0)
  | Some (i, _) => (delete i c, 1)
  end.

(** A product with that id exists in the store. *)
Definition exists_product (product_id : string) (c : collection) : Prop :=
  ∃ d, d ∈ c ∧ matches product_id d.

(** The ids of the documents of a collection, in its order. *)
Definition ids (c : collection) : list value := omap (.!! "id") c.

(** ** [server.py] *)

(** The failure of a product route for an id that is not in the store. *)
Definition NotFound : failure := HTTPException 404 "Producto no encontrado".

Section server.
Context `{Jwt.Lib} `{Pydantic.Lib}.
Variable environ : gmap string string.
Import Pydantic.

(** [now] is the reading of the clock inside [create_access_token]. *)
Definition admin_login (username password : string) (now : datetime)
  : result (Jwt.token * string) :=
  if negb (verify_admin_credentials environ username password) then
    inl (HTTPException 401 "Credenciales incorrectas")
  else
    let access_token :=
      create_access_token environ {["sub" := VStr username]}
        (Some (timedelta_hours 24)) now in
    inr (access_token, username).

Definition verify_admin (username : value) : dict :=
  {["valid" := VBool true; "username" := username]}.

(** The bodies of the two reading routes return the documents found; the
    framework then serialises what a body returns through the route's
    [response_model]. *)
Definition get_products (db : collection) : list dict :=
  let products := find_to_list 1000 db in
  products.

Definition get_product (product_id : string) (db : collection)
  : result dict :=
  let product := find_one product_id db in
  if negb (truthy product) then
    inl (HTTPException 404 "Producto no encontrado")
  else
    match product with
    | Some product => inr product
    | None => inl (ServerError "TypeError")
    end.

(** The timestamp [k] of a dumped model replaced by its ISO text. *)
Definition isoformat_item (k : string) (doc : dict) : option dict :=
  match doc !! k with
  | Some (VDate t) => Some (<[k := VStr (isoformat t)]> doc)
  | _ => None
  end.

(** [g] holds what the default factories of [Product] return, [oid] is the
    ObjectId of the inserted document. *)
Definition create_product (product : ProductCreate.t) (username : value)
    (g : factories) (oid : N) (db : collection)
  : result Product.t * collection :=
  let product_dict := ProductCreate.model_dump product in
  match Product.init g product_dict with
  | None => (inl (ServerError "ValidationError"), db)
  | Some new_product =>
      let doc := Product.model_dump new_product in
      match isoformat_item "createdAt" doc ≫= isoformat_item "updatedAt" with
      | None => (inl (ServerError "AttributeError"), db)
      | Some doc =>
          match insert_one doc oid db with
          | inl e => (inl e, db)
          | inr db => (inr new_product, db)
          end
      end
  end.

(** [now] is the reading of the clock for [updatedAt]; [g] holds what the
    default factories of [Product] would return for a field missing from
    the stored document. *)
Definition update_product (product_id : string)
    (product_update : ProductUpdate.t) (username : value)
    (now : datetime) (g : factories) (db : collection)
  : result Product.t * collection :=
  let existing_product := find_one product_id db in
  if negb (truthy existing_product) then
    (inl (HTTPException 404 "Producto no encontrado"), db)
  else
    let update_data := ProductUpdate.model_dump_exclude_unset product_update in
    let update_data := <["updatedAt" := VStr (isoformat now)]> update_data in
    match update_one product_id update_data db with
    | inl e => (inl e, db)
    | inr db =>
        let updated_product := find_one product_id db in
        match updated_product with
        | None => (inl (ServerError "TypeError"), db)
        | Some updated_product =>
            match Product.init g updated_product with
            | None => (inl (ServerError "ValidationError"), db)
            | Some p => (inr p, db)
            end
        end
    end.

Definition delete_product (product_id : string) (username : value)
    (db : collection) : result dict * collection :=
  let '(db', deleted_count) := delete_one product_id db in
  if deleted_count =? 0 then
    (inl (HTTPException 404 "Producto no encontrado"), db')
  else
    (inr {["message" := VStr "Producto eliminado exitosamente"]}, db').

(** The entity that [create_product] builds: the fields of the request, and
    the results of the three default factories. *)
Definition created (product : ProductCreate.t) (g : factories) : Product.t :=
  {| Product.id := uuid4 g;
     Product.name := ProductCreate.name product;
     Product.category := ProductCreate.category product;
     Product.price := ProductCreate.price product;
     Product.image := ProductCreate.image product;
     Product.description := ProductCreate.description product;
     Product.specs := ProductCreate.specs product;
     Product.rating := ProductCreate.rating product;
     Product.reviews := ProductCreate.reviews product;
     Product.featured := ProductCreate.featured product;
     Product.affiliateLink := ProductCreate.affiliateLink product;
     Product.createdAt := utcnow_createdAt g;
     Product.updatedAt := utcnow_updatedAt g |}.

(** The document that [create_product] inserts for an entity. *)
Definition stored (p : Product.t) (oid : N) : dict :=
  <["_id" := VOid oid]> (
  <["updatedAt" := VStr (isoformat (Product.updatedAt p))]> (
  <["createdAt" := VStr (isoformat (Product.createdAt p))]> (
  Product.model_dump p))).

(** *** The protected routes

    A request to a protected route: the route with the arguments of its
    body, and what the body returns. *)
Inductive protected_request :=
  | GET_admin_verify
  | POST_products (product : ProductCreate.t) (g : factories) (oid : N)
  | PUT_products (product_id : string) (product_update : ProductUpdate.t)
      (now : datetime) (g : factories)
  | DELETE_products (product_id : string).

Inductive response :=
  | Json (d : dict)
  | Model (p : Product.t).

Definition lift {A B : Type} (f : A → B) {S : Type} (r : result A * S)
  : result B * S :=
  (sum_map Datatypes.id f r.1, r.2).

(** The body of the route, given the result of the dependency. *)
Definition route_body (r : protected_request) (username : value)
    (db : collection) : result response * collection :=
  match r with
  | GET_admin_verify => (inr (Json (verify_admin username)), db)
  | POST_products product g oid =>
      lift Model (create_product product username g oid db)
  | PUT_products product_id product_update now g =>
      lift Model (update_product product_id product_update username now g db)
  | DELETE_products product_id =>
      lift Json (delete_product product_id username db)
  end.

(** The route as registered: [username = Depends(verify_token)]. [clock]
    is the time at which the token is checked. *)
Definition protected_route (authorization : option (string * Jwt.token))
    (clock : datetime) (r : protected_request) (db : collection)
  : result response * collection :=
  Depends_verify_token environ authorization clock (route_body r) db.

End server.

(** ** The status checks of [server.py] *)

(** [datetime.fromisoformat], which reads back the text that [isoformat]
    writes. *)
Module Datetime.

Class Lib `{Pydantic.Lib} := {
  fromisoformat : string → option datetime;
  fromisoformat_isoformat t :
    fromisoformat (Pydantic.isoformat t) = Some t;
}.

End Datetime.

Module StatusCheckCreate.

Record t := {
  client_name : string;
}.

Definition model_dump (p : t) : dict :=
  <["client_name" := VStr (client_name p)]> ∅.

End StatusCheckCreate.

Module StatusCheck.

(** The results of the two default factories: the uuid and the reading of
    [datetime.now(timezone.utc)]. *)
Record factories := {
  uuid4 : string;
  now : datetime;
}.

Record t := {
  id : string;
  client_name : string;
  timestamp : datetime;
}.

Section ops.
Context `{Pydantic.Lib}.
Import Pydantic.

(** The constructor [StatusCheck], applied to a dict of keyword arguments;
    [None] is a [ValidationError]. Keys that are not fields are ignored
    ([extra="ignore"]). *)
Definition init (g : factories) (kwargs : dict) : option t :=
  id ← with_default validate_str "id" (uuid4 g) kwargs;
  client_name ← required validate_str "client_name" kwargs;
  timestamp ← with_default validate_datetime "timestamp" (now g) kwargs;
  Some {| id := id; client_name := client_name; timestamp := timestamp |}.

Definition model_dump (p : t) : dict :=
  <["id" := VStr (id p)]> (
  <["client_name" := VStr (client_name p)]> (
  <["timestamp" := VDate (timestamp p)]> ∅)).

End ops.

End StatusCheck.

Section status.
Context `{Pydantic.Lib} `{!Datetime.Lib}.
Import Pydantic.


(** The body of the loop of [get_status_checks]: a timestamp that is a
    string is replaced by the [datetime] it reads as; a document without
    timestamp raises [KeyError], a string that is not ISO text raises
    [ValueError]. *)
Definition convert_timestamp (check : dict) : result dict :=
  match check !! "timestamp" with
  | None => inl (ServerError "KeyError")
  | Some (VStr s) =>
      match Datetime.fromisoformat s with
      | None => inl (ServerError "ValueError")
      | Some t => inr (<["timestamp" := VDate t]> check)
      end
  | Some _ => inr check
  end.

(** A [for] loop that replaces each item of a list in turn and stops at
    the first exception. *)
Fixpoint for_each (f : dict → result dict) (l : list dict)
  : result (list dict) :=
  match l with
  | [] => inr []
  | x :: l =>
      match f x with
      | inl e => inl e
      | inr y =>
          match for_each f l with
          | inl e => inl e
          | inr ys => inr (y :: ys)
          end
      end
  end.

Definition get_status_checks (db : collection) : result (list dict) :=
  let status_checks := find_to_list 1000 db in
  for_each convert_timestamp status_checks.

End status.

(** ** Reference implementations of the library interfaces

    Small executable implementations, used to run the routes on concrete
    requests. A token is kept as its two parts; the signature is the key
    followed by the text of the claims; a [datetime] is written in binary
    with a sign. *)

Module Reference.

Definition show (v : value) : string :=
  match v with
  | VNull => "null"
  | VBool b => if b then "true" else "false"
  | VInt n => pretty n
  | VFloat q => pretty (Qnum q) +:+ "/" +:+ pretty (Zpos (Qden q))
  | VStr s => s
  | VList l => String.concat "," l
  | VDate t => pretty t
  | VOid n => pretty n
  end.

Definition digest (claims : dict) : string :=
  String.concat ";"
    ((λ kv : string * value, kv.1 +:+ "=" +:+ show kv.2) <$> map_to_list claims).

#[export] Instance jwt : Jwt.Lib := {|
  Jwt.token := option (dict * string);
  Jwt.hs256 key claims := key +:+ "." +:+ digest claims;
  Jwt.compact claims sig := Some (claims, sig);
  Jwt.parse tok := tok;
  Jwt.numeric v :=
    match v with
    | VInt n => Some n
    | VFloat q => Some (Qnum q ÷ Zpos (Qden q))
    | _ => None
    end;
  Jwt.parse_compact _ _ := eq_refl;
  Jwt.numeric_int _ := eq_refl;
|}.

Fixpoint bits (p : positive) : string :=
  match p with
  | xH => ""
  | xO p => String "0"%char (bits p)
  | xI p => String "1"%char (bits p)
  end.

Fixpoint unbits (s : string) : option positive :=
  match s with
  | EmptyString => Some xH
  | String c s =>
      if Ascii.eqb c "0"%char then xO <$> unbits s
      else if Ascii.eqb c "1"%char then xI <$> unbits s
      else None
  end.

Definition isoformat (t : datetime) : string :=
  match t with
  | Z0 => "Z"
  | Zpos p => String "+"%char (bits p)
  | Zneg p => String "-"%char (bits p)
  end.

Definition fromisoformat (s : string) : option datetime :=
  match s with
  | EmptyString => None
  | String c r =>
      if Ascii.eqb c "Z"%char then (if bool_decide (r = "") then Some 0 else None)
      else if Ascii.eqb c "+"%char then Zpos <$> unbits r
      else if Ascii.eqb c "-"%char then Zneg <$> unbits r
      else None
  end.

#[export] Instance pydantic : Pydantic.Lib.
Proof.
  refine {|
    Pydantic.isoformat := isoformat;
    Pydantic.validate_str v := match v with VStr s => Some s | _ => None end;
    Pydantic.validate_float v :=
      match v with
      | VFloat q => Some q
      | VInt n => Some (inject_Z n)
      | _ => None
      end;
    Pydantic.validate_int v := match v with VInt n => Some n | _ => None end;
    Pydantic.validate_bool v := match v with VBool b => Some b | _ => None end;
    Pydantic.validate_list_str v :=
      match v with VList l => Some l | _ => None end;
    Pydantic.validate_datetime v :=
      match v with
      | VDate t => Some t
      | VStr s => fromisoformat s
      | _ => None
      end;
  |}; try reflexivity.
  assert (Hbits : ∀ p, unbits (bits p) = Some p).
  { induction p as [p IH|p IH|]; simpl; [rewrite IH..|]; reflexivity. }
  intros [|p|p]; simpl; [reflexivity|rewrite Hbits..]; reflexivity.
Defined.

#[export] Instance datetime_lib : Datetime.Lib.
Proof.
  refine {| Datetime.fromisoformat := fromisoformat |}.
  exact (Pydantic.validate_datetime_iso (Lib := pydantic)).
Defined.

End Reference.

(** ** Concrete requests

    The inputs on which the routes are run below, with the reference
    libraries and the default configuration (an empty environment). *)

Module Scenario.
Import Reference.

Definition environ : gmap string string := ∅.

(** The body of the creation scenario of the specification. *)
Definition body : dict :=
  {[ "name" := VStr "X"; "category" := VStr "Electrónica";
     "price" := VFloat (9.99)%Q; "image" := VStr "u";
     "description" := VStr "d"; "affiliateLink" := VStr "l" ]}.

Definition product : ProductCreate.t :=
  {| ProductCreate.name := "X"; ProductCreate.category := "Electrónica";
     ProductCreate.price := (9.99)%Q; ProductCreate.image := "u";
     ProductCreate.description := "d"; ProductCreate.specs := [];
     ProductCreate.rating := (4.5)%Q; ProductCreate.reviews := 0;
     ProductCreate.featured := false; ProductCreate.affiliateLink := "l" |}.


(** The [n]-th creation: its uuid, and two readings of the clock one tick
    apart. *)
Definition factories_of (n : nat) : factories :=
  {| uuid4 := pretty n;
     utcnow_createdAt := 2 * Z.of_nat n;
     utcnow_updatedAt := 2 * Z.of_nat n + 1 |}.

(** The entity of the [n]-th creation and the document stored for it. *)
Abbreviation entity n := (created product (factories_of n)).
Abbreviation document n := (stored (entity n) (N.of_nat n)).

(** The store after [n] creations on an empty store. *)
Fixpoint catalogue (n : nat) : collection :=
  match n with
  | O => []
  | S n =>
      (create_product product (VStr "admin") (factories_of n) (N.of_nat n)
         (catalogue n)).2
  end.

(** A token of the admin, issued by [admin_login] 100 seconds and 700
    milliseconds after the epoch. *)
Definition login_time : datetime := 100700000.

Definition admin_token : Jwt.token :=
  create_access_token environ {["sub" := VStr "admin"]}
    (Some (timedelta_hours 24)) login_time.

(** A token signed with the current secret, with an expiration and no
    subject. *)
Definition anonymous_token : Jwt.token :=
  Jwt.encode {["exp" := VInt 50]} (SECRET_KEY environ).

(** A token with a subject and an expiration, signed with another secret. *)
Definition forged_token : Jwt.token :=
  Jwt.encode {["sub" := VStr "admin"; "exp" := VInt 50]} "another-secret".



End Scenario.

(** * Properties *)

(** ** The token service and the credential check *)

Section auth_properties.
Context `{Jwt.Lib}.
Variable environ : gmap string string.

Lemma seconds_le a b : seconds a ≤ seconds b ↔ a ≤ b.
Proof. unfold seconds, second. lia. Qed.

Lemma seconds_lt a b : seconds a < seconds b ↔ a < b.
Proof. unfold seconds, second. lia. Qed.

(** On whole seconds nothing is dropped. *)
Lemma expires_at_seconds n : expires_at (seconds n) = seconds n.
Proof. unfold expires_at, seconds, second. by rewrite Z.div_mul. Qed.

Lemma seconds_add a b : seconds a + seconds b = seconds (a + b).
Proof. unfold seconds. lia. Qed.


Lemma numeric_date_lookup k k' (payload : dict) :
  Jwt.numeric_date k payload !! k' =
    match payload !! k with
    | Some (VDate t) =>
        if decide (k = k') then Some (VInt (t / second)) else payload !! k'
    | _ => payload !! k'
    end.
Proof.
  unfold Jwt.numeric_date.
  destruct (payload !! k) as [[]|] eqn:E; try reflexivity.
  rewrite lookup_insert. reflexivity.
Qed.

Lemma numeric_date_lookup_ne k k' (payload : dict) :
  k ≠ k' → Jwt.numeric_date k payload !! k' = payload !! k'.
Proof.
  intros Hne. rewrite numeric_date_lookup.
  destruct (payload !! k) as [[]|]; try reflexivity.
  rewrite decide_False by done. reflexivity.
Qed.

Lemma numeric_date_absent k (payload : dict) :
  payload !! k = None → Jwt.numeric_date k payload = payload.
Proof. unfold Jwt.numeric_date. by intros ->. Qed.

(** The claim set that [create_access_token] signs, for claims without
    [iat] and [nbf]. *)
Lemma to_encode_claims (data : dict) expire :
  data !! "iat" = None → data !! "nbf" = None →
  Jwt.numeric_date "nbf" (Jwt.numeric_date "iat"
    (Jwt.numeric_date "exp" (<["exp" := VDate expire]> data))) =
  <["exp" := VInt (expire / second)]> data.
Proof.
  intros Hiat Hnbf.
  assert (Jwt.numeric_date "exp" (<["exp" := VDate expire]> data) =
          <["exp" := VInt (expire / second)]> data) as ->.
  { unfold Jwt.numeric_date.
    by rewrite lookup_insert_eq, insert_insert_eq. }
  rewrite (numeric_date_absent "iat") by (by rewrite lookup_insert_ne).
  rewrite (numeric_date_absent "nbf") by (by rewrite lookup_insert_ne).
  reflexivity.
Qed.

(** The checks of [decode] on claims that have an integer [exp] and no
    [iat], [nbf] or [aud]. *)
Lemma validate_claims_exp_only now (claims : dict) exp :
  claims !! "iat" = None → claims !! "nbf" = None → claims !! "aud" = None →
  claims !! "exp" = Some (VInt exp) →
  Jwt.validate_claims now claims =
    if bool_decide (seconds exp ≤ now) then Some Jwt.ExpiredSignatureError
    else None.
Proof.
  intros Hiat Hnbf Haud Hexp.
  unfold Jwt.validate_claims, Jwt.validate_not_future, Jwt.validate_exp,
    Jwt.validate_aud.
  rewrite Hiat, Hnbf, Hexp, Haud, Jwt.numeric_int.
  by case_bool_decide.
Qed.

(** What [verify_token] answers, at time [clock], for a token issued at time
    [now] from claims without [iat], [nbf] and [aud]. *)
Lemma verify_created (data : dict) expires_delta now clock :
  data !! "iat" = None → data !! "nbf" = None → data !! "aud" = None →
  verify_token environ clock
    (create_access_token environ data expires_delta now) =
    if bool_decide (expires_at (expiration expires_delta now) ≤ clock)
    then inl TokenExpired
    else match dict_get "sub" data with
         | None => inl (ServerError "AttributeError")
         | Some username => inr username
         end.
Proof.
  intros Hiat Hnbf Haud.
  unfold verify_token, create_access_token, Jwt.decode, Jwt.encode.
  fold (expiration expires_delta now).
  rewrite to_encode_claims by done.
  rewrite Jwt.parse_compact, bool_decide_true by reflexivity.
  rewrite (validate_claims_exp_only _ _ (expiration expires_delta now / second))
    by (rewrite ?lookup_insert_ne by done; done || apply lookup_insert_eq).
  fold (expires_at (expiration expires_delta now)).
  case_bool_decide; [reflexivity|].
  unfold dict_get. rewrite lookup_insert_ne by done.
  destruct (data !! "sub") as [[]|]; reflexivity.
Qed.

(** The token that [admin_login] and the claims below issue: the claims
    are the subject alone. *)
Lemma verify_created_sub s expires_delta now clock :
  verify_token environ clock
    (create_access_token environ {["sub" := VStr s]} expires_delta now) =
    if bool_decide (expires_at (expiration expires_delta now) ≤ clock)
    then inl TokenExpired else inr (VStr s).
Proof.
  rewrite verify_created by done. unfold dict_get.
  by rewrite lookup_singleton_eq.
Qed.

(** A token issued for a subject with a ttl other than zero is accepted
    until the start of the second in which the ttl elapses and refused as
    expired from then on. *)
Lemma issue_verify_nonzero_ttl s d now elapsed :
  d ≠ 0 →
  verify_token environ (now + elapsed)
    (create_access_token environ {["sub" := VStr s]} (Some d) now) =
    if bool_decide (expires_at (now + d) ≤ now + elapsed)
    then inl TokenExpired else inr (VStr s).
Proof.
  intros Hd. rewrite verify_created_sub.
  unfold expiration, timedelta_truthy.
  destruct (Z.eqb_spec d 0); [done|]. reflexivity.
Qed.

(** C1 (the code at the failing input). A token issued with a ttl of zero
    carries the default expiration of 24 hours: it is accepted at the time
    of issue and until the second of that expiration, although the ttl has
    elapsed, and is refused as expired only from then on. On times in
    whole seconds: it is accepted at every time less than 24 hours after
    the issue and refused as expired after 24 hours. *)
Theorem create_access_token_zero_ttl s now elapsed :
  verify_token environ (now + elapsed)
    (create_access_token environ {["sub" := VStr s]} (Some 0) now) =
    (if bool_decide (expires_at (now + seconds 86400) ≤ now + elapsed)
     then inl TokenExpired else inr (VStr s))
  ∧ verify_token environ (seconds (now + elapsed))
      (create_access_token environ {["sub" := VStr s]} (Some 0)
         (seconds now)) =
      (if bool_decide (86400 ≤ elapsed) then inl TokenExpired
       else inr (VStr s)).
Proof.
  split.
  - rewrite verify_created_sub. reflexivity.
  - rewrite verify_created_sub.
    change (expiration (Some 0) (seconds now))
      with (seconds now + seconds 86400).
    rewrite seconds_add, expires_at_seconds.
    repeat case_bool_decide; try reflexivity;
      rewrite seconds_le in *; lia.
Qed.

(** C4. The credential check is true exactly for the pair made of the
    configured admin username and the configured admin password, and false
    for every other pair. *)
Theorem verify_admin_credentials_iff username password :
  (verify_admin_credentials environ username password = true ↔
     username = ADMIN_USERNAME environ ∧ password = ADMIN_PASSWORD environ)
  ∧ (verify_admin_credentials environ username password = false ↔
     ¬ (username = ADMIN_USERNAME environ ∧ password = ADMIN_PASSWORD environ)).
Proof.
  unfold verify_admin_credentials. split.
  - rewrite andb_true_iff, !bool_decide_eq_true. reflexivity.
  - rewrite andb_false_iff, !bool_decide_eq_false. split; [tauto|].
    intros Hn. destruct (decide (username = ADMIN_USERNAME environ)); tauto.
Qed.

(** Every failure of [verify_token] is the expired token, of status 403,
    or the [AttributeError] of the second [except] clause, of status 500:
    the 403 of an invalid token is never the answer. *)
Lemma verify_token_failure clock t e :
  verify_token environ clock t = inl e →
  (e = TokenExpired ∧ status e = 403)
  ∨ (e = ServerError "AttributeError" ∧ status e = 500).
Proof.
  unfold verify_token.
  destruct (Jwt.decode _ _ _) as [[]|payload]; [..|destruct (dict_get _ _)];
    intros [= <-]; auto.
Qed.

(** A token that does not parse or whose signature is not the one of the
    current secret is answered with the [AttributeError]. *)
Lemma verify_token_unsigned clock (t : Jwt.token) :
  (Jwt.parse t = None
   ∨ ∃ claims sig, Jwt.parse t = Some (claims, sig)
       ∧ sig ≠ Jwt.hs256 (SECRET_KEY environ) claims) →
  verify_token environ clock t = inl (ServerError "AttributeError").
Proof.
  unfold verify_token, Jwt.decode.
  intros [->|(claims & sig & -> & Hsig)]; [reflexivity|].
  by rewrite bool_decide_false.
Qed.

(** C3 (the code on invalid tokens). The checks of [verify_token] in
    their order. A token that cannot be parsed, or whose signature is not
    the one the current secret gives for its claims (so a token signed with
    another secret, or whose claims were changed after signing), is not
    answered with [TokenInvalid]: the request ends in the [AttributeError]
    of the second [except] clause, a server error. So does a token whose
    signature verifies and whose claims fail another check than the
    expiration, and a token with valid claims and no subject (or a null
    one). A token whose signature verifies and whose claims fail on the
    expiration fails with [TokenExpired], of status 403 (for claims
    without [iat] and [nbf]: when the current time is at or past the
    second of [exp]). [verify_token] has no other failure, and never
    answers [TokenInvalid]. *)
Theorem verify_token_invalid_paths clock (t : Jwt.token) :
  (Jwt.parse t = None →
     verify_token environ clock t = inl (ServerError "AttributeError"))
  ∧ (∀ claims sig, Jwt.parse t = Some (claims, sig) →
      (sig ≠ Jwt.hs256 (SECRET_KEY environ) claims →
         verify_token environ clock t = inl (ServerError "AttributeError"))
      ∧ (sig = Jwt.hs256 (SECRET_KEY environ) claims →
         (Jwt.validate_claims clock claims = Some Jwt.ExpiredSignatureError →
            verify_token environ clock t = inl TokenExpired)
         ∧ (∀ v exp, claims !! "iat" = None → claims !! "nbf" = None →
              claims !! "exp" = Some v → Jwt.numeric v = Some exp →
              seconds exp ≤ clock →
              verify_token environ clock t = inl TokenExpired)
         ∧ (∀ e, Jwt.validate_claims clock claims = Some e →
              e ≠ Jwt.ExpiredSignatureError →
              verify_token environ clock t =
                inl (ServerError "AttributeError"))
         ∧ (Jwt.validate_claims clock claims = None →
            dict_get "sub" claims = None →
            verify_token environ clock t =
              inl (ServerError "AttributeError"))))
  ∧ (∀ payload key,
      let claims :=
        Jwt.numeric_date "nbf" (Jwt.numeric_date "iat"
          (Jwt.numeric_date "exp" payload)) in
      Jwt.hs256 key claims ≠ Jwt.hs256 (SECRET_KEY environ) claims →
      verify_token environ clock (Jwt.encode payload key) =
        inl (ServerError "AttributeError"))
  ∧ (∀ claims claims',
      Jwt.hs256 (SECRET_KEY environ) claims ≠
        Jwt.hs256 (SECRET_KEY environ) claims' →
      verify_token environ clock
        (Jwt.compact claims' (Jwt.hs256 (SECRET_KEY environ) claims)) =
        inl (ServerError "AttributeError"))
  ∧ (∀ e, verify_token environ clock t = inl e →
      (e = TokenExpired ∧ status e = 403)
      ∨ (e = ServerError "AttributeError" ∧ status e = 500))
  ∧ verify_token environ clock t ≠ inl TokenInvalid.
Proof.
  split_and!.
  - intros Hp. apply verify_token_unsigned. by left.
  - intros claims sig Hp.
    split; [intros Hsig; apply verify_token_unsigned; right; eauto|].
    intros Hsig. unfold verify_token, Jwt.decode.
    rewrite Hp, bool_decide_true by done.
    split_and!.
    + by intros ->.
    + intros v exp Hiat Hnbf Hv Hnum Hle.
      assert (Jwt.validate_claims clock claims =
              Some Jwt.ExpiredSignatureError) as ->; [|done].
      unfold Jwt.validate_claims, Jwt.validate_not_future, Jwt.validate_exp.
      rewrite Hiat, Hnbf, Hv, Hnum. by rewrite bool_decide_true.
    + intros e -> He. by destruct e.
    + by intros -> ->.
  - intros payload key claims Hsig. apply verify_token_unsigned. right.
    eexists _, _. split; [apply Jwt.parse_compact|done].
  - intros claims claims' Hsig. apply verify_token_unsigned. right.
    eexists _, _. split; [apply Jwt.parse_compact|done].
  - apply verify_token_failure.
  - intros Hv. by apply verify_token_failure in Hv as [[? _]|[? _]].
Qed.

End auth_properties.


(** ** The collection *)

Section collection_properties.
Implicit Types (c db : collection) (d : dict) (product_id : string).

Lemma list_find_matches_None product_id c :
  list_find (matches product_id) c = None ↔ ¬ exists_product product_id c.
Proof.
  rewrite list_find_None, Forall_forall. unfold exists_product.
  split; [intros Hall (d & Hd & Hm); by apply (Hall d)|].
  intros Hno d Hd Hm. apply Hno. eauto.
Qed.

Lemma list_find_matches_Some product_id c i d :
  list_find (matches product_id) c = Some (i, d) →
  c !! i = Some d ∧ matches product_id d ∧ exists_product product_id c.
Proof.
  intros (Hi & Hm & _)%list_find_Some. split_and!; [done..|].
  exists d. split; [by eapply list_elem_of_lookup_2|done].
Qed.

Lemma find_one_None product_id c :
  find_one product_id c = None ↔ ¬ exists_product product_id c.
Proof.
  unfold find_one. rewrite fmap_None. apply list_find_matches_None.
Qed.

(** The document that [find_one] returns has the id asked for, so it is not
    the empty dict. *)
Lemma find_one_Some_id product_id c d :
  find_one product_id c = Some d → d !! "id" = Some (VStr product_id).
Proof.
  unfold find_one. intros ([i d0] & Hf & ->)%fmap_Some.
  apply list_find_matches_Some in Hf as (_ & Hm & _). simpl.
  rewrite lookup_delete_ne by done. exact Hm.
Qed.

Lemma truthy_find_one product_id c :
  truthy (find_one product_id c) = true ↔ exists_product product_id c.
Proof.
  destruct (find_one product_id c) as [d|] eqn:E; simpl.
  - split; [intros _|intros _].
    + unfold find_one in E. apply fmap_Some in E as ([i d0] & Hf & _).
      by apply list_find_matches_Some in Hf as (_ & _ & Hex).
    + apply find_one_Some_id in E. rewrite bool_decide_false; [done|].
      intros ->. by rewrite lookup_empty in E.
  - apply find_one_None in E. split; [done|]. intros; by destruct E.
Qed.

Lemma not_truthy_find_one product_id c :
  negb (truthy (find_one product_id c)) = true ↔ ¬ exists_product product_id c.
Proof.
  rewrite negb_true_iff, <- truthy_find_one. symmetry. apply not_true_iff_false.
Qed.

(** [set_fields] with a [$set] that has no [id]: the document found is the
    one that was found before, with the new fields laid over it. *)
Lemma find_one_set_fields product_id update_data c i d :
  update_data !! "id" = None →
  list_find (matches product_id) c = Some (i, d) →
  set_fields product_id update_data c = <[i := update_data ∪ d]> c
  ∧ find_one product_id (set_fields product_id update_data c) =
      Some (delete "_id" (update_data ∪ d)).
Proof.
  intros Hid Hf. unfold set_fields, find_one. rewrite Hf. split; [done|].
  apply list_find_Some in Hf as (Hi & Hm & Hbefore).
  assert (list_find (matches product_id) (<[i := update_data ∪ d]> c) =
          Some (i, update_data ∪ d)) as ->; [|done].
  apply list_find_Some. split_and!.
  - apply list_lookup_insert_eq. by eapply lookup_lt_Some.
  - unfold matches in *. rewrite lookup_union_r; done.
  - intros j y Hj Hlt. rewrite list_lookup_insert_ne in Hj by lia. eauto.
Qed.

(** The ids of the stored documents are not changed by such an update. *)
Lemma set_fields_ids product_id update_data c :
  update_data !! "id" = None →
  (.!! "id") <$> set_fields product_id update_data c = (.!! "id") <$> c.
Proof.
  intros Hid. unfold set_fields.
  destruct (list_find _ c) as [[i d]|] eqn:Hf; [|done].
  apply list_find_Some in Hf as (Hi & _ & _).
  rewrite list_fmap_insert, lookup_union_r by done.
  apply list_insert_id. by rewrite list_lookup_fmap, Hi.
Qed.

Lemma set_fields_absent product_id update_data c :
  ¬ exists_product product_id c → set_fields product_id update_data c = c.
Proof.
  intros Hn%list_find_matches_None. unfold set_fields. by rewrite Hn.
Qed.

Lemma delete_one_absent product_id c :
  ¬ exists_product product_id c → delete_one product_id c = (c, 0).
Proof.
  intros Hn%list_find_matches_None. unfold delete_one. by rewrite Hn.
Qed.

Lemma delete_one_count product_id c :
  (delete_one product_id c).2 = 0 ↔ ¬ exists_product product_id c.
Proof.
  unfold delete_one.
  destruct (list_find _ c) as [[i d]|] eqn:Hf; simpl.
  - apply list_find_matches_Some in Hf as (_ & _ & Hex). split; [done|tauto].
  - apply list_find_matches_None in Hf. tauto.
Qed.

(** A document is encodable when each of its integers fits in 8 bytes. *)
Lemma bson_encodable_spec (doc : dict) :
  bson_encodable doc = true ↔ ∀ k v, doc !! k = Some v → bson_value v.
Proof. unfold bson_encodable. by rewrite bool_decide_eq_true. Qed.

Lemma bson_encodable_empty : bson_encodable ∅ = true.
Proof. apply bson_encodable_spec. intros k v. by rewrite lookup_empty. Qed.

Lemma bson_encodable_insert k v (doc : dict) :
  bson_value v → bson_encodable doc = true →
  bson_encodable (<[k := v]> doc) = true.
Proof.
  rewrite !bson_encodable_spec. intros Hv Hdoc k' v'.
  rewrite lookup_insert. case_decide; [by intros [= <-]|apply Hdoc].
Qed.

Lemma bson_encodable_false (doc : dict) k n :
  doc !! k = Some (VInt n) → ¬ int64 n → bson_encodable doc = false.
Proof.
  intros Hk Hn. apply not_true_is_false. rewrite bson_encodable_spec.
  intros Hall. by apply (Hall k (VInt n)) in Hk.
Qed.

End collection_properties.

(** ** The models *)

Section model_properties.
Context `{Pydantic.Lib}.
Import Pydantic.

(** A field validator reads its own key only. *)
Lemma required_ext {A} (validate : value → option A) k (kw kw' : dict) :
  kw' !! k = kw !! k → required validate k kw' = required validate k kw.
Proof. unfold required. by intros ->. Qed.

Lemma with_default_ext {A} (validate : value → option A) k dflt
    (kw kw' : dict) :
  kw' !! k = kw !! k →
  with_default validate k dflt kw' = with_default validate k dflt kw.
Proof. unfold with_default. by intros ->. Qed.

(** [Product.init] succeeds exactly when each field validates. *)
Lemma Product_init_Some g kwargs p :
  Product.init g kwargs = Some p ↔
    with_default validate_str "id" (uuid4 g) kwargs = Some (Product.id p)
    ∧ required validate_str "name" kwargs = Some (Product.name p)
    ∧ required validate_str "category" kwargs = Some (Product.category p)
    ∧ required validate_float "price" kwargs = Some (Product.price p)
    ∧ required validate_str "image" kwargs = Some (Product.image p)
    ∧ required validate_str "description" kwargs = Some (Product.description p)
    ∧ with_default validate_list_str "specs" [] kwargs = Some (Product.specs p)
    ∧ with_default validate_float "rating" (4.5)%Q kwargs
        = Some (Product.rating p)
    ∧ with_default validate_int "reviews" 0 kwargs = Some (Product.reviews p)
    ∧ with_default validate_bool "featured" false kwargs
        = Some (Product.featured p)
    ∧ required validate_str "affiliateLink" kwargs
        = Some (Product.affiliateLink p)
    ∧ with_default validate_datetime "createdAt" (utcnow_createdAt g) kwargs
        = Some (Product.createdAt p)
    ∧ with_default validate_datetime "updatedAt" (utcnow_updatedAt g) kwargs
        = Some (Product.updatedAt p).
Proof.
  unfold Product.init. split.
  - intros Hinit. repeat (apply bind_Some in Hinit as (? & ? & Hinit)).
    injection Hinit as <-. simpl. by split_and!.
  - intros (-> & -> & -> & -> & -> & -> & -> & -> & -> & -> & -> & -> & ->).
    simpl. by destruct p.
Qed.

Lemma ProductCreate_init_Some (kwargs : dict) p :
  ProductCreate.init kwargs = Some p ↔
    required validate_str "name" kwargs = Some (ProductCreate.name p)
    ∧ required validate_str "category" kwargs = Some (ProductCreate.category p)
    ∧ required validate_float "price" kwargs = Some (ProductCreate.price p)
    ∧ required validate_str "image" kwargs = Some (ProductCreate.image p)
    ∧ required validate_str "description" kwargs
        = Some (ProductCreate.description p)
    ∧ with_default validate_list_str "specs" [] kwargs
        = Some (ProductCreate.specs p)
    ∧ with_default validate_float "rating" (4.5)%Q kwargs
        = Some (ProductCreate.rating p)
    ∧ with_default validate_int "reviews" 0 kwargs
        = Some (ProductCreate.reviews p)
    ∧ with_default validate_bool "featured" false kwargs
        = Some (ProductCreate.featured p)
    ∧ required validate_str "affiliateLink" kwargs
        = Some (ProductCreate.affiliateLink p).
Proof.
  unfold ProductCreate.init. split.
  - intros Hinit. repeat (apply bind_Some in Hinit as (? & ? & Hinit)).
    injection Hinit as <-. simpl. by split_and!.
  - intros (-> & -> & -> & -> & -> & -> & -> & -> & -> & ->).
    simpl. by destruct p.
Qed.

(** A key other than the field's is not touched by the field's entry. *)
Lemma dump_set_lookup_ne {A} (inj : A → value) k k' (f : field A) (d : dict) :
  k ≠ k' → dump_set inj k f d !! k' = d !! k'.
Proof.
  intros Hne. destruct f as [|[v|]]; simpl;
    rewrite ?lookup_insert_ne by done; reflexivity.
Qed.

Lemma dump_set_lookup_Unset {A} (inj : A → value) k k' (d : dict) :
  dump_set inj k (@Unset A) d !! k' = d !! k'.
Proof. reflexivity. Qed.


(** [model_dump(exclude_unset=True)] of a [ProductUpdate] has no key that
    is not one of its fields; in particular it has no [id], [createdAt] or
    [_id]. *)
Lemma model_dump_exclude_unset_lookup_None pu k :
  k ∉ ProductUpdate.model_fields →
  ProductUpdate.model_dump_exclude_unset pu !! k = None.
Proof.
  intros Hk. unfold ProductUpdate.model_dump_exclude_unset.
  unfold ProductUpdate.model_fields in Hk.
  rewrite !not_elem_of_cons in Hk. destruct_and!.
  rewrite !dump_set_lookup_ne by done. apply lookup_empty.
Qed.

End model_properties.

(** ** The routes *)

Section server_properties.
Context `{Jwt.Lib} `{Pydantic.Lib}.
Variable environ : gmap string string.
Import Pydantic.
Implicit Types (db : collection) (d : dict) (product_id : string).


(** The store after [update_product] holds the same ids at the same
    places, whatever the update and whether it succeeds or not. *)
Lemma update_product_ids product_id pu username now g db :
  (.!! "id") <$> (update_product product_id pu username now g db).2 =
  (.!! "id") <$> db.
Proof.
  unfold update_product.
  destruct (negb (truthy (find_one product_id db))); [done|].
  set (update_data := <["updatedAt" := _]> _).
  assert (update_data !! "id" = None) as Hid.
  { unfold update_data. rewrite lookup_insert_ne by done.
    apply model_dump_exclude_unset_lookup_None.
    unfold ProductUpdate.model_fields. rewrite !not_elem_of_cons.
    split_and!; try done. apply not_elem_of_nil. }
  unfold update_one. destruct (bson_encodable update_data); [|done].
  destruct (find_one product_id (set_fields _ _ _)) as [d|]; simpl;
    [destruct (Product.init g d); simpl|]; by apply set_fields_ids.
Qed.

(** C9. When [update_product] succeeds, the product returned has the id
    that was asked for, the document found under that id in the store has
    it too, and every place of the store holds the id it held before. *)
Theorem update_product_keeps_id product_id pu username now g db p db' :
  update_product product_id pu username now g db = (inr p, db') →
  Product.id p = product_id
  ∧ (∃ d', find_one product_id db' = Some d'
           ∧ d' !! "id" = Some (VStr product_id))
  ∧ (.!! "id") <$> db' = (.!! "id") <$> db.
Proof.
  intros Hup.
  pose proof (update_product_ids product_id pu username now g db) as Hids.
  rewrite Hup in Hids. simpl in Hids. split_and!; [| |done].
  - unfold update_product in Hup.
    destruct (negb (truthy (find_one product_id db))); [done|].
    unfold update_one in Hup. destruct (bson_encodable _); [|done].
    destruct (find_one product_id (set_fields _ _ _)) as [d|] eqn:Hf; [|done].
    destruct (Product.init g d) as [p'|] eqn:Hinit; [|done].
    injection Hup as <- <-.
    apply find_one_Some_id in Hf.
    apply Product_init_Some in Hinit as (Hid & _).
    unfold with_default in Hid. rewrite Hf, validate_str_str in Hid.
    by injection Hid.
  - unfold update_product in Hup.
    destruct (negb (truthy (find_one product_id db))); [done|].
    unfold update_one in Hup. destruct (bson_encodable _); [|done].
    destruct (find_one product_id (set_fields _ _ _)) as [d|] eqn:Hf; [|done].
    destruct (Product.init g d) as [p'|] eqn:Hinit; [|done].
    injection Hup as <- <-.
    exists d. split; [done|]. by eapply find_one_Some_id.
Qed.

(** C7. [get_product], [update_product] and [delete_product] fail with
    [NotFound] (status 404) exactly when no product of the store has the id,
    and then the store is the one before the call. *)
Theorem not_found_iff product_id db :
  (get_product product_id db = inl NotFound
   ↔ ¬ exists_product product_id db)
  ∧ (∀ pu username now g,
      ((update_product product_id pu username now g db).1 = inl NotFound
       ↔ ¬ exists_product product_id db)
      ∧ (¬ exists_product product_id db →
         (update_product product_id pu username now g db).2 = db))
  ∧ (∀ username,
      ((delete_product product_id username db).1 = inl NotFound
       ↔ ¬ exists_product product_id db)
      ∧ (¬ exists_product product_id db →
         (delete_product product_id username db).2 = db))
  ∧ status NotFound = 404.
Proof.
  split_and!; [| | |done].
  - unfold get_product. rewrite <- not_truthy_find_one.
    destruct (negb (truthy (find_one product_id db))) eqn:E; [done|].
    destruct (find_one product_id db); split; done.
  - intros pu username now g. unfold update_product.
    rewrite <- not_truthy_find_one.
    destruct (negb (truthy (find_one product_id db))) eqn:E; [done|].
    split; [|done].
    unfold update_one. destruct (bson_encodable _); [|split; done].
    destruct (find_one product_id (set_fields _ _ _)) as [d|]; simpl;
      [destruct (Product.init g d); simpl|]; split; done.
  - intros username. unfold delete_product.
    rewrite <- delete_one_count.
    destruct (delete_one product_id db) as [db' n] eqn:Hdel. simpl.
    destruct (Z.eqb_spec n 0) as [->|Hn]; simpl.
    + split; [done|]. intros _.
      assert (¬ exists_product product_id db) as Hno.
      { apply delete_one_count. by rewrite Hdel. }
      apply delete_one_absent in Hno. congruence.
    + split; [split; done|done].
Qed.

(** The [$set] document of an update of the price alone. *)
Lemma only_price_update_data q now :
  <["updatedAt" := VStr (isoformat now)]>
    (ProductUpdate.model_dump_exclude_unset (ProductUpdate.only_price q)) =
  <["updatedAt" := VStr (isoformat now)]> {["price" := VFloat q]}.
Proof. reflexivity. Qed.

(** C5. An update that provides the price alone, of a product that exists
    and validates as [p]: the product returned is [p] with the new price
    and with [updatedAt] set to the time of the update; the stored document
    has the new price and the new [updatedAt] and every other key as
    before; the other documents of the store are as before. *)
Theorem update_price_only product_id q username now g db d p :
  find_one product_id db = Some d →
  Product.init g d = Some p →
  ∃ db' d',
    update_product product_id (ProductUpdate.only_price q) username now g db =
      (inr {| Product.id := Product.id p;
              Product.name := Product.name p;
              Product.category := Product.category p;
              Product.price := q;
              Product.image := Product.image p;
              Product.description := Product.description p;
              Product.specs := Product.specs p;
              Product.rating := Product.rating p;
              Product.reviews := Product.reviews p;
              Product.featured := Product.featured p;
              Product.affiliateLink := Product.affiliateLink p;
              Product.createdAt := Product.createdAt p;
              Product.updatedAt := now |}, db')
    ∧ find_one product_id db' = Some d'
    ∧ d' !! "price" = Some (VFloat q)
    ∧ d' !! "updatedAt" = Some (VStr (isoformat now))
    ∧ (∀ k, k ≠ "price" → k ≠ "updatedAt" → d' !! k = d !! k)
    ∧ length db' = length db
    ∧ (∀ j dj, db !! j = Some dj → ¬ matches product_id dj →
         db' !! j = Some dj).
Proof.
  intros Hfind Hinit. unfold update_product.
  assert (negb (truthy (find_one product_id db)) = false) as ->.
  { apply negb_false_iff, truthy_find_one.
    destruct (decide (truthy (find_one product_id db) = true)) as [Ht|Ht];
      [by apply truthy_find_one|].
    apply not_true_is_false, negb_true_iff, not_truthy_find_one,
      find_one_None in Ht. congruence. }
  rewrite only_price_update_data.
  set (update_data := <["updatedAt" := _]> _).
  assert (update_one product_id update_data db =
          inr (set_fields product_id update_data db)) as ->.
  { unfold update_one, update_data.
    assert (bson_encodable
              (<["updatedAt" := VStr (isoformat now)]>
                 ({["price" := VFloat q]} : dict)) = true) as ->; [|done].
    repeat (apply bson_encodable_insert; [by simpl|]).
    apply bson_encodable_empty. }
  pose proof Hfind as Hfind0.
  unfold find_one in Hfind. apply fmap_Some in Hfind as ([i d0] & Hf & ->).
  simpl in *.
  assert (update_data !! "id" = None) as Hid by done.
  destruct (find_one_set_fields product_id update_data db i d0 Hid Hf)
    as [Hdb' Hfind'].
  rewrite Hfind'.
  set (d' := delete "_id" (update_data ∪ d0)).
  assert (Hprice : d' !! "price" = Some (VFloat q)).
  { unfold d'. rewrite lookup_delete_ne by done.
    by apply lookup_union_Some_l. }
  assert (Hupd : d' !! "updatedAt" = Some (VStr (isoformat now))).
  { unfold d'. rewrite lookup_delete_ne by done.
    by apply lookup_union_Some_l. }
  assert (Hother : ∀ k, k ≠ "price" → k ≠ "updatedAt" →
            d' !! k = delete "_id" d0 !! k).
  { intros k Hk1 Hk2. unfold d'. rewrite !lookup_delete.
    case_decide; [done|]. apply lookup_union_r.
    unfold update_data. by rewrite lookup_insert_ne, lookup_singleton_ne. }
  apply Product_init_Some in Hinit
    as (? & ? & ? & ? & ? & ? & ? & ? & ? & ? & ? & ? & ?).
  match goal with
  | |- context [Product.init g d'] =>
      assert (Product.init g d' =
        Some {| Product.id := Product.id p;
                Product.name := Product.name p;
                Product.category := Product.category p;
                Product.price := q;
                Product.image := Product.image p;
                Product.description := Product.description p;
                Product.specs := Product.specs p;
                Product.rating := Product.rating p;
                Product.reviews := Product.reviews p;
                Product.featured := Product.featured p;
                Product.affiliateLink := Product.affiliateLink p;
                Product.createdAt := Product.createdAt p;
                Product.updatedAt := now |}) as ->
  end.
  { apply Product_init_Some. simpl.
    split_and!;
      try (erewrite required_ext by (by apply Hother); done);
      try (erewrite with_default_ext by (by apply Hother); done).
    - unfold required. by rewrite Hprice; simpl; rewrite validate_float_float.
    - unfold with_default. by rewrite Hupd, validate_datetime_iso. }
  exists (set_fields product_id update_data db), d'.
  split_and!; try done.
  - rewrite Hdb'. apply length_insert.
  - intros j dj Hj Hm. rewrite Hdb'.
    apply list_find_matches_Some in Hf as (Hi & Hmi & _).
    rewrite list_lookup_insert_ne; [done|]. intros <-. congruence.
Qed.

(** Reading a key of a dumped model. *)
Ltac dump_lookup :=
  unfold required, with_default, Product.model_dump, ProductCreate.model_dump;
  simpl;
  repeat first
    [ rewrite lookup_insert_eq
    | rewrite lookup_insert_ne by done
    | rewrite lookup_delete_ne by done ];
  rewrite ?lookup_empty; simpl;
  rewrite ?validate_str_str, ?validate_float_float, ?validate_int_int,
    ?validate_bool_bool, ?validate_list_str_list, ?validate_datetime_date,
    ?validate_datetime_iso;
  try reflexivity.

Lemma Product_init_model_dump product g :
  Product.init g (ProductCreate.model_dump product) = Some (created product g).
Proof. apply Product_init_Some. split_and!; dump_lookup. Qed.

(** The document that [create_product] hands to [insert_one] is encodable
    exactly when the review count fits in 8 bytes. *)
Lemma created_encodable (p : Product.t) :
  bson_encodable
    (<["updatedAt" := VStr (isoformat (Product.updatedAt p))]>
       (<["createdAt" := VStr (isoformat (Product.createdAt p))]>
          (Product.model_dump p))) =
  bool_decide (int64 (Product.reviews p)).
Proof.
  case_bool_decide as Hn.
  - unfold Product.model_dump.
    repeat (apply bson_encodable_insert; [by simpl|]).
    apply bson_encodable_empty.
  - apply (bson_encodable_false _ "reviews" (Product.reviews p)); [|done].
    dump_lookup.
Qed.

Lemma create_product_cases product username g oid db :
  create_product product username g oid db =
    if bool_decide (int64 (ProductCreate.reviews product))
    then (inr (created product g), db ++ [stored (created product g) oid])
    else (inl (ServerError "OverflowError"), db).
Proof.
  unfold create_product. rewrite Product_init_model_dump.
  set (p := created product g).
  assert (isoformat_item "createdAt" (Product.model_dump p) =
          Some (<["createdAt" := VStr (isoformat (Product.createdAt p))]>
                  (Product.model_dump p))) as ->.
  { unfold isoformat_item. dump_lookup. }
  cbn [mbind option_bind].
  assert (isoformat_item "updatedAt"
            (<["createdAt" := VStr (isoformat (Product.createdAt p))]>
               (Product.model_dump p)) =
          Some (<["updatedAt" := VStr (isoformat (Product.updatedAt p))]>
                 (<["createdAt" := VStr (isoformat (Product.createdAt p))]>
                    (Product.model_dump p)))) as ->.
  { unfold isoformat_item. dump_lookup. }
  unfold insert_one. rewrite created_encodable.
  change (Product.reviews p) with (ProductCreate.reviews product).
  by case_bool_decide.
Qed.

(** A creation whose review count fits in 8 bytes returns the entity and
    appends its document. *)
Lemma create_product_eq product username g oid db :
  int64 (ProductCreate.reviews product) →
  create_product product username g oid db =
    (inr (created product g), db ++ [stored (created product g) oid]).
Proof.
  intros Hn. by rewrite create_product_cases, bool_decide_true.
Qed.


(** The stored document, read without its [_id], validates as the entity
    it was made from. *)
Lemma Product_init_stored p oid g :
  Product.init g (delete "_id" (stored p oid)) = Some p.
Proof.
  apply Product_init_Some. unfold stored. split_and!; dump_lookup.
Qed.


(** [get_products] returns the documents of the store in its order,
    without their [_id], up to the first 1000: the product at a place below
    1000 is returned at that place, nothing else is returned, and every
    product is returned when the store holds at most 1000. *)
Lemma get_products_first_1000 db :
  length (get_products db) = (1000 `min` length db)%nat
  ∧ (∀ i d, (i < 1000)%nat → db !! i = Some d →
       get_products db !! i = Some (delete "_id" d))
  ∧ (∀ d', d' ∈ get_products db → ∃ d, d ∈ db ∧ d' = delete "_id" d)
  ∧ ((length db ≤ 1000)%nat →
       ∀ d, d ∈ db → delete "_id" d ∈ get_products db).
Proof.
  unfold get_products, find_to_list. split_and!.
  - by rewrite length_fmap, length_take.
  - intros i d Hi Hd. by rewrite list_lookup_fmap, lookup_take_lt, Hd.
  - intros d' (d & -> & Hd)%list_elem_of_fmap. exists d. split; [|done].
    apply list_elem_of_lookup in Hd as [i Hd].
    apply lookup_take_Some in Hd as [Hd _].
    by eapply list_elem_of_lookup_2.
  - intros Hlen d Hd. rewrite take_ge by done.
    by apply list_elem_of_fmap_2.
Qed.

(** C10 (the code at the failing input). The body [{"name": null}] is
    accepted as a [ProductUpdate] whose name is set to [None]; the update of
    an existing product with it writes a null name into the stored document,
    and the route then fails to validate the document it reads back. *)
Theorem update_product_null_name product_id username now g db d :
  find_one product_id db = Some d →
  ProductUpdate.init {["name" := VNull]} = Some ProductUpdate.null_name
  ∧ ∃ db' d',
      update_product product_id ProductUpdate.null_name username now g db =
        (inl (ServerError "ValidationError"), db')
      ∧ find_one product_id db' = Some d'
      ∧ d' !! "name" = Some VNull.
Proof.
  intros Hfind. split; [reflexivity|]. unfold update_product.
  assert (negb (truthy (find_one product_id db)) = false) as ->.
  { apply negb_false_iff. rewrite Hfind. simpl.
    apply find_one_Some_id in Hfind. rewrite bool_decide_false; [done|].
    intros ->. by rewrite lookup_empty in Hfind. }
  set (update_data := <["updatedAt" := _]> _).
  assert (update_one product_id update_data db =
          inr (set_fields product_id update_data db)) as ->.
  { assert (bson_encodable update_data = true) as Henc.
    { unfold update_data. apply bson_encodable_insert; [by simpl|].
      apply (bson_encodable_insert "name" VNull ∅); [by simpl|].
      apply bson_encodable_empty. }
    unfold update_one. by rewrite Henc. }
  unfold find_one in Hfind. apply fmap_Some in Hfind as ([i d0] & Hf & ->).
  assert (update_data !! "id" = None) as Hid by done.
  destruct (find_one_set_fields product_id update_data db i d0 Hid Hf)
    as [Hdb' Hfind'].
  rewrite Hfind'.
  set (d' := delete "_id" (update_data ∪ d0)).
  assert (Hname : d' !! "name" = Some VNull).
  { unfold d'. rewrite lookup_delete_ne by done.
    by apply lookup_union_Some_l. }
  destruct (Product.init g d') as [p|] eqn:Hinit.
  - apply Product_init_Some in Hinit as (_ & Hn & _).
    unfold required in Hn. rewrite Hname in Hn. simpl in Hn.
    rewrite validate_str_null in Hn. discriminate.
  - eauto.
Qed.

End server_properties.

(** ** The routes on concrete requests *)

Section scenario.
Import Reference Scenario.

Lemma int64_product : int64 (ProductCreate.reviews product).
Proof. unfold int64. simpl. lia. Qed.

(** The store after [n] creations holds the [n] documents created, in the
    order of creation. *)
Lemma catalogue_eq n :
  catalogue n = (λ i, document i) <$> seq 0 n.
Proof.
  induction n as [|n IH]; [reflexivity|].
  cbn [catalogue]. rewrite create_product_eq by exact int64_product.
  cbn [snd]. by rewrite IH, seq_S, fmap_app.
Qed.

Lemma document_id n :
  delete "_id" (document n) !! "id" = Some (VStr (pretty n)).
Proof. reflexivity. Qed.

(** The store of one product, and the results of the routes on it that
    the statements below start from. *)
Lemma find_one_catalogue_1 :
  find_one "0" (catalogue 1) = Some (delete "_id" (document 0)).
Proof. rewrite catalogue_eq. vm_compute. reflexivity. Qed.


Lemma update_catalogue_1 :
  ∃ p db',
    update_product "0" (ProductUpdate.only_price (10)%Q) (VStr "admin") 7
      (factories_of 5) (catalogue 1) = (inr p, db').
Proof. rewrite catalogue_eq. eexists _, _. vm_compute. reflexivity. Qed.

Lemma absent_catalogue_1 : ¬ exists_product "missing" (catalogue 1).
Proof. apply find_one_None. rewrite catalogue_eq. vm_compute. reflexivity. Qed.

(** The login scenario of the specification: the default credentials are
    accepted, and the token issued 100.7 seconds after the epoch is
    accepted by [verify_token] until the second 86500 begins. *)
Example admin_login_default :
  admin_login environ "admin" "admin123" login_time =
    inr (admin_token, "admin")
  ∧ verify_token environ login_time admin_token = inr (VStr "admin")
  ∧ verify_token environ (seconds 86500 - 1) admin_token = inr (VStr "admin")
  ∧ verify_token environ (seconds 86500) admin_token = inl TokenExpired
  ∧ admin_login environ "admin" "admin" login_time =
      inl (HTTPException 401 "Credenciales incorrectas").
Proof. split_and!; reflexivity. Qed.

(** A token issued at second 100 with a ttl of zero is accepted at second
    100 and a day minus a second later. *)
Example zero_ttl_token_accepted :
  let token :=
    create_access_token environ {["sub" := VStr "admin"]} (Some 0)
      (seconds 100) in
  verify_token environ (seconds 100) token = inr (VStr "admin")
  ∧ verify_token environ (seconds (100 + 86399)) token = inr (VStr "admin").
Proof. split; reflexivity. Qed.

(** A token issued at second 100 with a ttl of half a second is expired
    when it is issued. *)
Example half_second_token_expired :
  verify_token environ (seconds 100)
    (create_access_token environ {["sub" := VStr "admin"]} (Some 500000)
       (seconds 100)) = inl TokenExpired.
Proof. reflexivity. Qed.

(** [POST /api/products] on an empty store: with the admin's token the
    product is created; without a header, with another scheme and with an
    expired token the request is refused with status 403, with a forged
    token it ends in a server error, and the store stays empty. *)
Example post_products_scenario :
  let request := POST_products product (factories_of 0) 0 in
  protected_route environ (Some ("Bearer", admin_token)) (seconds 200)
    request [] = (inr (Model (entity 0)), [document 0])
  ∧ protected_route environ None (seconds 200) request [] =
      (inl (HTTPException 403 "Not authenticated"), [])
  ∧ protected_route environ (Some ("Basic", admin_token)) (seconds 200)
      request [] =
      (inl (HTTPException 403 "Invalid authentication credentials"), [])
  ∧ protected_route environ (Some ("Bearer", forged_token)) (seconds 10)
      request [] = (inl (ServerError "AttributeError"), [])
  ∧ protected_route environ (Some ("Bearer", admin_token)) (seconds 86500)
      request [] = (inl TokenExpired, []).
Proof. split_and!; vm_compute; reflexivity. Qed.

(** The checks of [verify_token] on three tokens: signed with another
    secret; signed, expired and without a subject; signed, not expired and
    without a subject. *)
Lemma verify_token_invalid_paths_witness :
  verify_token environ (seconds 60) forged_token =
    inl (ServerError "AttributeError")
  ∧ verify_token environ (seconds 60) anonymous_token = inl TokenExpired
  ∧ verify_token environ (seconds 10) anonymous_token =
      inl (ServerError "AttributeError")
  ∧ status (ServerError "AttributeError") = 500.
Proof.
  split_and!; [| | |reflexivity].
  - destruct (verify_token_invalid_paths environ (seconds 60) forged_token)
      as (_ & _ & Hkey & _).
    apply (Hkey {["sub" := VStr "admin"; "exp" := VInt 50]} "another-secret").
    vm_compute. discriminate.
  - destruct (verify_token_invalid_paths environ (seconds 60) anonymous_token)
      as (_ & Hparsed & _).
    destruct (Hparsed {["exp" := VInt 50]}
                (Jwt.hs256 (SECRET_KEY environ) {["exp" := VInt 50]})
                eq_refl) as (_ & Hsigned).
    destruct (Hsigned eq_refl) as (_ & Hexpired & _).
    apply (Hexpired (VInt 50) 50); [reflexivity..|].
    apply seconds_le. lia.
  - destruct (verify_token_invalid_paths environ (seconds 10) anonymous_token)
      as (_ & Hparsed & _).
    destruct (Hparsed {["exp" := VInt 50]}
                (Jwt.hs256 (SECRET_KEY environ) {["exp" := VInt 50]})
                eq_refl) as (_ & Hsigned).
    destruct (Hsigned eq_refl) as (_ & _ & _ & Hsubject).
    apply Hsubject; reflexivity.
Defined.





(** C8 (the code at the failing input). After 1001 creations the store
    holds 1001 products and [get_products] returns 1000 of them: the last
    product created is in the store and is not returned. *)
Lemma get_products_misses_product :
  length (catalogue 1001) = 1001%nat
  ∧ length (get_products (catalogue 1001)) = 1000%nat
  ∧ document 1000 ∈ catalogue 1001
  ∧ delete "_id" (document 1000) ∉ get_products (catalogue 1001).
Proof.
  unfold get_products, find_to_list. rewrite catalogue_eq.
  rewrite <- fmap_take, take_seq, <- list_fmap_compose.
  rewrite !length_fmap, !length_seq. split_and!; try reflexivity.
  - apply (list_elem_of_fmap_2 (λ i, document i)), elem_of_seq. lia.
  - intros (i & Heq & Hi)%list_elem_of_fmap. apply elem_of_seq in Hi.
    apply (f_equal (.!! "id")) in Heq. simpl in Heq.
    rewrite (document_id 1000), (document_id i) in Heq.
    injection Heq as Heq. apply (inj pretty) in Heq. lia.
Qed.

(** A store of one product: the product is returned. *)
Lemma get_products_first_1000_witness :
  (length (catalogue 1) ≤ 1000)%nat
  ∧ document 0 ∈ catalogue 1
  ∧ delete "_id" (document 0) ∈ get_products (catalogue 1).
Proof.
  assert (Hlen : (length (catalogue 1) ≤ 1000)%nat).
  { rewrite catalogue_eq, length_fmap, length_seq. lia. }
  assert (Hin : document 0 ∈ catalogue 1).
  { rewrite catalogue_eq. apply list_elem_of_here. }
  split; [exact Hlen|]. split; [exact Hin|].
  destruct (get_products_first_1000 (catalogue 1)) as (_ & _ & _ & Hall).
  exact (Hall Hlen _ Hin).
Defined.

(** The price of the product of a store of one product set to 10, at
    time 7. *)
Lemma update_price_only_witness :
  find_one "0" (catalogue 1) = Some (delete "_id" (document 0))
  ∧ Product.init (factories_of 5) (delete "_id" (document 0)) = Some (entity 0)
  ∧ ∃ db',
      update_product "0" (ProductUpdate.only_price (10)%Q) (VStr "admin") 7
        (factories_of 5) (catalogue 1) =
      (inr {| Product.id := "0";
              Product.name := "X";
              Product.category := "Electrónica";
              Product.price := (10)%Q;
              Product.image := "u";
              Product.description := "d";
              Product.specs := [];
              Product.rating := (4.5)%Q;
              Product.reviews := 0;
              Product.featured := false;
              Product.affiliateLink := "l";
              Product.createdAt := 0;
              Product.updatedAt := 7 |}, db').
Proof.
  split; [exact find_one_catalogue_1|].
  split; [apply Product_init_stored|].
  destruct (update_price_only "0" (10)%Q (VStr "admin") 7 (factories_of 5)
              (catalogue 1) _ _ find_one_catalogue_1
              (Product_init_stored (entity 0) 0%N (factories_of 5)))
    as (db' & d' & Hup & _).
  exists db'. exact Hup.
Defined.

(** The same update: the product returned and the store keep the id. *)
Lemma update_product_keeps_id_witness :
  ∃ p db',
    update_product "0" (ProductUpdate.only_price (10)%Q) (VStr "admin") 7
      (factories_of 5) (catalogue 1) = (inr p, db')
    ∧ Product.id p = "0"
    ∧ (.!! "id") <$> db' = (.!! "id") <$> catalogue 1.
Proof.
  destruct update_catalogue_1 as (p & db' & Hup).
  exists p, db'. split; [exact Hup|].
  destruct (update_product_keeps_id _ _ _ _ _ _ _ _ Hup) as (Hid & _ & Hids).
  split; [exact Hid|exact Hids].
Defined.

(** The body [{"name": null}] sent for the product of a store of one
    product. *)
Lemma update_product_null_name_witness :
  find_one "0" (catalogue 1) = Some (delete "_id" (document 0))
  ∧ ∃ db' d',
      update_product "0" ProductUpdate.null_name (VStr "admin") 7
        (factories_of 5) (catalogue 1) =
        (inl (ServerError "ValidationError"), db')
      ∧ find_one "0" db' = Some d'
      ∧ d' !! "name" = Some VNull.
Proof.
  split; [exact find_one_catalogue_1|].
  exact (proj2 (update_product_null_name "0" (VStr "admin") 7 (factories_of 5)
                  (catalogue 1) _ find_one_catalogue_1)).
Defined.

(** An id that is not in a store of one product. *)
Lemma not_found_iff_witness :
  ¬ exists_product "missing" (catalogue 1)
  ∧ get_product "missing" (catalogue 1) = inl NotFound
  ∧ (delete_product "missing" (VStr "admin") (catalogue 1)).2 = catalogue 1.
Proof.
  split; [exact absent_catalogue_1|].
  destruct (not_found_iff "missing" (catalogue 1)) as (Hget & _ & Hdel & _).
  split; [apply Hget, absent_catalogue_1|].
  apply (Hdel (VStr "admin")), absent_catalogue_1.
Defined.

End scenario.

(** * Further properties *)

(** Reading a key of a dict written as a chain of insertions. *)
Ltac lookup_keys :=
  unfold stored, Product.model_dump, StatusCheck.model_dump,
    StatusCheckCreate.model_dump;
  repeat first
    [ rewrite lookup_insert_eq
    | rewrite lookup_insert_ne by done
    | rewrite lookup_delete_ne by done ];
  rewrite ?lookup_empty; try reflexivity.


(** ** Tokens and login *)

Section token_properties.
Context `{Jwt.Lib} `{Pydantic.Lib}.
Variable environ : gmap string string.


(** X2. What [verify_token] accepts: the token parses, its signature is
    the one the current secret gives for its claims, the subject returned
    is the [sub] of the claims and is not null, the expiration, when there
    is one, reads as a date after the current time, the [iat] and [nbf],
    when there are, read as dates not after the current time, and the
    claims have no audience. *)
Theorem verify_token_accepts clock (t : Jwt.token) username :
  verify_token environ clock t = inr username →
  ∃ claims,
    Jwt.parse t = Some (claims, Jwt.hs256 (SECRET_KEY environ) claims)
    ∧ claims !! "sub" = Some username
    ∧ username ≠ VNull
    ∧ (∀ v, claims !! "exp" = Some v →
         ∃ exp, Jwt.numeric v = Some exp ∧ clock < seconds exp)
    ∧ (∀ k v, k = "iat" ∨ k = "nbf" → claims !! k = Some v →
         ∃ t, Jwt.numeric v = Some t ∧ seconds t ≤ clock)
    ∧ (∀ v, claims !! "aud" = Some v → Jwt.claim_truthy v = false).
Proof.
  unfold verify_token, Jwt.decode.
  destruct (Jwt.parse t) as [[claims sig]|]; [|done].
  case_bool_decide as Hsig; [subst sig|done].
  destruct (Jwt.validate_claims clock claims) as [e|] eqn:Hval; [done|].
  destruct (dict_get "sub" claims) as [u|] eqn:Hsub; [|done].
  intros [= ->]. exists claims. split; [done|].
  assert (Hfuture : ∀ k bad,
    Jwt.validate_not_future k bad clock claims = None →
    ∀ v, claims !! k = Some v →
      ∃ t, Jwt.numeric v = Some t ∧ seconds t ≤ clock).
  { intros k bad Hk v Hv. unfold Jwt.validate_not_future in Hk.
    rewrite Hv in Hk. destruct (Jwt.numeric v) as [t'|]; [|done].
    case_bool_decide; [done|]. exists t'. split; [done|lia]. }
  unfold Jwt.validate_claims in Hval.
  destruct (Jwt.validate_not_future "iat" _ _ _) eqn:Hiat; [done|].
  destruct (Jwt.validate_not_future "nbf" _ _ _) eqn:Hnbf; [done|].
  destruct (Jwt.validate_exp clock claims) eqn:Hexp; [done|].
  unfold dict_get in Hsub. split_and!.
  - destruct (claims !! "sub") as [[]|]; done.
  - intros ->. destruct (claims !! "sub") as [[]|]; done.
  - intros v Hv. unfold Jwt.validate_exp in Hexp. rewrite Hv in Hexp.
    destruct (Jwt.numeric v) as [exp|]; [|done].
    case_bool_decide; [done|]. exists exp. split; [done|lia].
  - intros k v [->| ->]; eauto.
  - intros v Hv. unfold Jwt.validate_aud in Hval. rewrite Hv in Hval.
    by destruct (Jwt.claim_truthy v).
Qed.

(** The result of the checks of the claims over time. *)
Lemma validate_claims_later clock clock' (claims : dict) :
  clock ≤ clock' →
  (Jwt.validate_claims clock claims = None →
     Jwt.validate_claims clock' claims = None
     ∨ Jwt.validate_claims clock' claims = Some Jwt.ExpiredSignatureError)
  ∧ (Jwt.validate_claims clock claims = Some Jwt.ExpiredSignatureError →
     Jwt.validate_claims clock' claims = Some Jwt.ExpiredSignatureError)
  ∧ (Jwt.validate_claims clock' claims = None →
     Jwt.validate_claims clock claims = None
     ∨ Jwt.validate_claims clock claims = Some Jwt.ImmatureSignatureError).
Proof.
  intros Hle.
  unfold Jwt.validate_claims, Jwt.validate_not_future, Jwt.validate_exp.
  destruct (claims !! "iat") as [vi|];
    [destruct (Jwt.numeric vi) as [ti|]|];
    destruct (claims !! "nbf") as [vn|];
    try destruct (Jwt.numeric vn) as [tn|];
    destruct (claims !! "exp") as [ve|];
    try destruct (Jwt.numeric ve) as [te|];
    destruct (Jwt.validate_aud claims);
    repeat case_bool_decide; try lia; split_and!; intros; auto; done.
Qed.

(** X3. The answer of [verify_token] over time, for one token. After a
    time at which it is accepted, the token is accepted with the same
    subject or refused as expired; once refused as expired, it stays so.
    Before a time at which it is accepted, it is accepted with the same
    subject or the request ends in the server error of a claim that is not
    valid yet. *)
Theorem verify_token_over_time clock clock' (t : Jwt.token) :
  clock ≤ clock' →
  (∀ username, verify_token environ clock t = inr username →
     verify_token environ clock' t = inr username
     ∨ verify_token environ clock' t = inl TokenExpired)
  ∧ (verify_token environ clock t = inl TokenExpired →
     verify_token environ clock' t = inl TokenExpired)
  ∧ (∀ username, verify_token environ clock' t = inr username →
     verify_token environ clock t = inr username
     ∨ verify_token environ clock t = inl (ServerError "AttributeError")).
Proof.
  intros Hle. unfold verify_token, Jwt.decode.
  destruct (Jwt.parse t) as [[claims sig]|]; [|split_and!; done].
  case_bool_decide; [|split_and!; done].
  destruct (validate_claims_later clock clock' claims Hle)
    as (Hafter & Hexpired & Hbefore).
  destruct (Jwt.validate_claims clock claims) as [e|] eqn:Hc;
    destruct (Jwt.validate_claims clock' claims) as [e'|] eqn:Hc'.
  - split_and!; [done| |done].
    intros He.
    assert (e = Jwt.ExpiredSignatureError) as -> by (by destruct e).
    specialize (Hexpired eq_refl). by injection Hexpired as ->.
  - split_and!; [done| |].
    + intros He.
      assert (e = Jwt.ExpiredSignatureError) as -> by (by destruct e).
      by specialize (Hexpired eq_refl).
    + intros username Hu. right.
      destruct (Hbefore eq_refl) as [|[= ->]]; done.
  - split_and!; [| |done].
    + intros username Hu. right.
      destruct (Hafter eq_refl) as [|[= ->]]; done.
    + by destruct (dict_get "sub" claims).
  - split_and!; [|done|]; intros username Hu; left; exact Hu.
Qed.

(** X4. [admin_login] refuses with 401 exactly the pairs that are not the
    configured username and password; for the configured pair it returns
    the username with a token that [verify_token] accepts, with that
    username, until the second of the expiration 24 hours after the login
    begins, and refuses as expired from then on: on times in whole seconds,
    for 24 hours from the login. *)
Theorem admin_login_token username password now :
  (admin_login environ username password now =
     inl (HTTPException 401 "Credenciales incorrectas")
   ↔ ¬ (username = ADMIN_USERNAME environ
        ∧ password = ADMIN_PASSWORD environ))
  ∧ (username = ADMIN_USERNAME environ → password = ADMIN_PASSWORD environ →
     ∃ token,
       admin_login environ username password now = inr (token, username)
       ∧ ∀ elapsed,
           verify_token environ (now + elapsed) token =
             if bool_decide (expires_at (now + seconds 86400) ≤ now + elapsed)
             then inl TokenExpired
             else inr (VStr username))
  ∧ (username = ADMIN_USERNAME environ → password = ADMIN_PASSWORD environ →
     ∃ token,
       admin_login environ username password (seconds now) =
         inr (token, username)
       ∧ ∀ elapsed,
           verify_token environ (seconds (now + elapsed)) token =
             if bool_decide (86400 ≤ elapsed) then inl TokenExpired
             else inr (VStr username)).
Proof.
  unfold admin_login, verify_admin_credentials. split_and!.
  - repeat case_bool_decide; simpl; split; (done || tauto).
  - intros Hu Hp. rewrite !bool_decide_true by done. simpl.
    eexists. split; [reflexivity|]. intros elapsed.
    by rewrite verify_created_sub.
  - intros Hu Hp. rewrite !bool_decide_true by done. simpl.
    eexists. split; [reflexivity|]. intros elapsed.
    rewrite verify_created_sub.
    change (expiration (Some (timedelta_hours 24)) (seconds now))
      with (seconds now + seconds 86400).
    rewrite seconds_add, expires_at_seconds.
    repeat case_bool_decide; try reflexivity;
      rewrite seconds_le in *; lia.
Qed.

(** X5. Login, then a protected route: with the token of a login presented
    under the [Bearer] scheme, a protected route runs its body with the
    username of the login until the second of the expiration 24 hours
    after the login begins, and from then on refuses the request as
    expired and leaves the store as it was: on times in whole seconds, the
    body runs during 24 hours. *)
Theorem login_then_protected_route username password now token u elapsed r db :
  (admin_login environ username password now = inr (token, u) →
   protected_route environ (Some ("Bearer", token)) (now + elapsed) r db =
     if bool_decide (expires_at (now + seconds 86400) ≤ now + elapsed)
     then (inl TokenExpired, db)
     else route_body r (VStr username) db)
  ∧ (admin_login environ username password (seconds now) = inr (token, u) →
     protected_route environ (Some ("Bearer", token))
       (seconds (now + elapsed)) r db =
       if bool_decide (86400 ≤ elapsed) then (inl TokenExpired, db)
       else route_body r (VStr username) db).
Proof.
  assert (Hroute : ∀ now' clock,
    admin_login environ username password now' = inr (token, u) →
    protected_route environ (Some ("Bearer", token)) clock r db =
      if bool_decide (expires_at (now' + seconds 86400) ≤ clock)
      then (inl TokenExpired, db)
      else route_body r (VStr username) db).
  { intros now' clock. unfold admin_login.
    destruct (negb (verify_admin_credentials environ username password));
      [done|].
    intros [= <- <-]. unfold protected_route, Depends_verify_token.
    change (security (Some ("Bearer", _))) with
      (@inr failure Jwt.token
         (create_access_token environ {["sub" := VStr username]}
            (Some (timedelta_hours 24)) now')).
    cbv beta iota. rewrite verify_created_sub.
    change (expiration (Some (timedelta_hours 24)) now')
      with (now' + seconds 86400).
    by case_bool_decide. }
  split.
  - apply Hroute.
  - intros Hlogin. rewrite (Hroute _ _ Hlogin).
    rewrite seconds_add, expires_at_seconds.
    repeat case_bool_decide; try reflexivity;
      rewrite seconds_le in *; lia.
Qed.

End token_properties.

(** ** The product routes composed *)

Section product_properties.
Context `{Pydantic.Lib}.
Import Pydantic.
Implicit Types (db : collection) (d : dict) (product_id : string).

(** The first document with an id splits the collection. *)
Lemma list_find_matches_split product_id db i d :
  list_find (matches product_id) db = Some (i, d) →
  db = take i db ++ d :: drop (S i) db
  ∧ delete i db = take i db ++ drop (S i) db
  ∧ matches product_id d
  ∧ ¬ exists_product product_id (take i db).
Proof.
  intros (Hi & Hm & Hbefore)%list_find_Some. split_and!.
  - by rewrite take_drop_middle.
  - apply delete_take_drop.
  - done.
  - intros (x & Hx & Hmx). apply list_elem_of_lookup in Hx as [j Hj].
    apply lookup_take_Some in Hj as [Hj Hlt]. by eapply Hbefore.
Qed.

Lemma exists_product_app product_id db1 db2 :
  exists_product product_id (db1 ++ db2) ↔
  exists_product product_id db1 ∨ exists_product product_id db2.
Proof.
  unfold exists_product. split.
  - intros (d & [Hd|Hd]%elem_of_app & Hm); [left|right]; eauto.
  - intros [(d & Hd & Hm)|(d & Hd & Hm)]; exists d;
      rewrite elem_of_app; auto.
Qed.

Lemma elem_of_ids product_id db :
  VStr product_id ∈ ids db ↔ exists_product product_id db.
Proof. unfold ids, exists_product, matches. apply list_elem_of_omap. Qed.

Lemma ids_fmap db : ids db = omap Datatypes.id ((.!! "id") <$> db).
Proof.
  unfold ids. induction db as [|d db IH]; [done|].
  cbn. rewrite IH. reflexivity.
Qed.







End product_properties.

(** ** Deletion and the ids of the store *)

Section delete_properties.
Context `{Pydantic.Lib}.
Import Pydantic.
Implicit Types (db : collection) (d : dict) (product_id : string).

Lemma filter_matches_absent product_id db :
  ¬ exists_product product_id db → filter (matches product_id) db = [].
Proof.
  intros Hno. induction db as [|d db IH]; [done|].
  rewrite filter_cons_False.
  - apply IH. intros (x & Hx & Hm). apply Hno. exists x.
    split; [by right|done].
  - intros Hm. apply Hno. exists d. split; [by left|done].
Qed.

Lemma filter_others_absent product_id db :
  ¬ exists_product product_id db →
  filter (λ d, ¬ matches product_id d) db = db.
Proof.
  intros Hno. induction db as [|d db IH]; [done|].
  rewrite filter_cons_True.
  - f_equal. apply IH. intros (x & Hx & Hm). apply Hno. exists x.
    split; [by right|done].
  - intros Hm. apply Hno. exists d. split; [by left|done].
Qed.

Lemma ids_sublist db1 db2 :
  db1 `sublist_of` db2 → ids db1 `sublist_of` ids db2.
Proof.
  unfold ids. induction 1 as [|d l1 l2 _ IH|d l1 l2 _ IH]; cbn.
  - constructor.
  - destruct (d !! "id"); cbn; [by constructor|done].
  - destruct (d !! "id"); cbn; [by constructor|done].
Qed.

(** X9. [delete_product] on an id of the store removes one document, the
    first of that id, and answers with the confirmation: the documents of
    other ids stay, in their order, and the other documents of the same id
    (if the store holds several) stay too. *)
Theorem delete_product_removes_first product_id username db :
  exists_product product_id db →
  (delete_product product_id username db).1 =
    inr {["message" := VStr "Producto eliminado exitosamente"]}
  ∧ S (length (delete_product product_id username db).2) = length db
  ∧ filter (λ d, ¬ matches product_id d)
      (delete_product product_id username db).2 =
    filter (λ d, ¬ matches product_id d) db
  ∧ filter (matches product_id) (delete_product product_id username db).2 =
    tail (filter (matches product_id) db).
Proof.
  intros Hex. unfold delete_product, delete_one.
  destruct (list_find (matches product_id) db) as [[i d]|] eqn:Hf;
    [|by apply list_find_matches_None in Hf].
  simpl. pose proof (list_find_matches_split _ _ _ _ Hf)
    as (Hsplit & Hdel & Hm & Hbefore).
  pose proof Hf as (Hi & _ & _)%list_find_Some.
  split_and!.
  - done.
  - rewrite length_delete by eauto. apply lookup_lt_Some in Hi. lia.
  - rewrite Hdel. rewrite Hsplit at 3.
    rewrite !filter_app, filter_cons_False by (intros Hn; by apply Hn).
    done.
  - rewrite Hdel. rewrite Hsplit at 3.
    rewrite !filter_app, filter_cons_True by done.
    by rewrite !(filter_matches_absent _ (take i db)).
Qed.

(** X10. The ids of the store stay distinct: when no two documents of the
    store have the same id, this is still so after a creation whose
    generated id is not in the store, after any update and after any
    deletion. *)
Theorem ids_stay_distinct db :
  NoDup (ids db) →
  (∀ product username g oid,
     ¬ exists_product (uuid4 g) db →
     NoDup (ids (create_product product username g oid db).2))
  ∧ (∀ product_id pu username now g,
     NoDup (ids (update_product product_id pu username now g db).2))
  ∧ (∀ product_id username,
     NoDup (ids (delete_product product_id username db).2)).
Proof.
  intros Hnd. split_and!.
  - intros product username g oid Hfresh.
    rewrite create_product_cases. case_bool_decide; cbn [snd]; [|done].
    unfold ids. rewrite omap_app.
    fold (ids db). apply NoDup_app. split_and!; [done| |].
    + intros x Hx Hin. cbn in Hin.
      assert (stored (created product g) oid !! "id" = Some (VStr (uuid4 g)))
        as Hid by lookup_keys.
      rewrite Hid in Hin. cbn in Hin.
      apply list_elem_of_singleton in Hin as ->.
      by apply elem_of_ids in Hx.
    + cbn. destruct (stored _ _ !! "id"); cbn;
        [apply NoDup_singleton|apply NoDup_nil_2].
  - intros product_id pu username now g.
    by rewrite ids_fmap, update_product_ids, <- ids_fmap.
  - intros product_id username. unfold delete_product, delete_one.
    destruct (list_find (matches product_id) db) as [[i d]|]; [|done].
    simpl. eapply sublist_NoDup; [exact Hnd|].
    apply ids_sublist, sublist_delete.
Qed.

(** X11. Deletion, then reading by id: in a store whose ids are distinct,
    [get_product] fails with [NotFound] for an id that [delete_product] was
    just called with, whether the id was in the store or not. *)
Theorem delete_then_get_product product_id username db :
  NoDup (ids db) →
  get_product product_id (delete_product product_id username db).2 =
    inl NotFound.
Proof.
  intros Hnd.
  assert (¬ exists_product product_id
              (delete_product product_id username db).2) as Hno.
  { unfold delete_product, delete_one.
    destruct (list_find (matches product_id) db) as [[i d]|] eqn:Hf; simpl.
    - pose proof (list_find_matches_split _ _ _ _ Hf)
        as (Hsplit & Hdel & Hm & Hbefore).
      rewrite Hdel. rewrite Hsplit in Hnd.
      unfold ids in Hnd. rewrite omap_app in Hnd. cbn in Hnd.
      unfold matches in Hm. rewrite Hm in Hnd. cbn in Hnd.
      apply NoDup_app in Hnd as (_ & _ & Hnd).
      apply NoDup_cons in Hnd as [Hnotin _].
      rewrite exists_product_app. intros [Hl|Hr]; [done|].
      by apply elem_of_ids in Hr.
    - by apply list_find_matches_None in Hf. }
  unfold get_product.
  apply not_truthy_find_one in Hno. by rewrite Hno.
Qed.

End delete_properties.

(** ** The models, dumped and validated *)

Section dump_properties.
Context `{Pydantic.Lib}.
Import Pydantic.

Lemma ProductUpdate_init_Some (body : dict) pu :
  ProductUpdate.init body = Some pu →
  optional validate_str "name" body = Some (ProductUpdate.name pu)
  ∧ optional validate_str "category" body = Some (ProductUpdate.category pu)
  ∧ optional validate_float "price" body = Some (ProductUpdate.price pu)
  ∧ optional validate_str "image" body = Some (ProductUpdate.image pu)
  ∧ optional validate_str "description" body
      = Some (ProductUpdate.description pu)
  ∧ optional validate_list_str "specs" body = Some (ProductUpdate.specs pu)
  ∧ optional validate_float "rating" body = Some (ProductUpdate.rating pu)
  ∧ optional validate_int "reviews" body = Some (ProductUpdate.reviews pu)
  ∧ optional validate_bool "featured" body
      = Some (ProductUpdate.featured pu)
  ∧ optional validate_str "affiliateLink" body
      = Some (ProductUpdate.affiliateLink pu).
Proof.
  unfold ProductUpdate.init. intros Hinit.
  repeat (apply bind_Some in Hinit as (? & ? & Hinit)).
  injection Hinit as <-. simpl. by split_and!.
Qed.

(** A field is unset exactly when the body has no such key, and a null in
    the body sets the field to [None]. *)
Lemma optional_spec {A} (validate : value → option A) k (body : dict) f :
  optional validate k body = Some f →
  (f = Unset ↔ body !! k = None)
  ∧ (body !! k = Some VNull → f = Provided None).
Proof.
  unfold optional.
  destruct (body !! k) as [v|]; [|intros [= <-]; split; done].
  destruct v; try (intros [= <-]; split; done);
    intros (x & _ & ->)%fmap_Some; split; (done || (split; done)).
Qed.

Lemma dump_set_key {A} (inj : A → value) k (f : field A) (d : dict) :
  d !! k = None →
  (dump_set inj k f d !! k = None ↔ f = Unset)
  ∧ (f = Provided None → dump_set inj k f d !! k = Some VNull).
Proof.
  intros Hd. destruct f as [|[v|]]; simpl;
    rewrite ?lookup_insert_eq; split; done.
Qed.

(** One field of the dumped update against the body. *)
Lemma dump_field_spec {A} (validate : value → option A) (inj : A → value)
    k (body : dict) f (d : dict) :
  optional validate k body = Some f →
  d !! k = None →
  (dump_set inj k f d !! k = None ↔ body !! k = None)
  ∧ (body !! k = Some VNull → dump_set inj k f d !! k = Some VNull).
Proof.
  intros [Hunset Hnull]%optional_spec Hd.
  destruct (dump_set_key inj k f d Hd) as [Hnone Hwritten].
  split; [by rewrite Hnone|]. intros Hb. by apply Hwritten, Hnull.
Qed.

(** X12. From the body of an update to what is written: a key is in the
    dump of the validated update exactly when it is a field of
    [ProductUpdate] and a key of the body; a field that is null in the body
    is null in the dump. Keys of the body that are not fields (an [id], a
    [createdAt]) are dropped. *)
Theorem ProductUpdate_written_keys (body : dict) pu k :
  ProductUpdate.init body = Some pu →
  (ProductUpdate.model_dump_exclude_unset pu !! k = None
   ↔ k ∉ ProductUpdate.model_fields ∨ body !! k = None)
  ∧ (k ∈ ProductUpdate.model_fields → body !! k = Some VNull →
     ProductUpdate.model_dump_exclude_unset pu !! k = Some VNull).
Proof.
  intros (? & ? & ? & ? & ? & ? & ? & ? & ? & ?)%ProductUpdate_init_Some.
  destruct (decide (k ∈ ProductUpdate.model_fields)) as [Hin|Hnotin].
  - assert (Hfield :
      (ProductUpdate.model_dump_exclude_unset pu !! k = None
       ↔ body !! k = None)
      ∧ (body !! k = Some VNull →
         ProductUpdate.model_dump_exclude_unset pu !! k = Some VNull)).
    { unfold ProductUpdate.model_fields in Hin.
      rewrite !elem_of_cons in Hin. unfold ProductUpdate.model_dump_exclude_unset.
      destruct Hin as [->|[->|[->|[->|[->|[->|[->|[->|[->|[->|Hin]]]]]]]]]];
        [..|by apply elem_of_nil in Hin];
        repeat (rewrite dump_set_lookup_ne by done);
        (eapply dump_field_spec; [eassumption|]);
        repeat (rewrite dump_set_lookup_ne by done); apply lookup_empty. }
    destruct Hfield as [Hnone Hnull]. split; [|auto].
    rewrite Hnone. split; [auto|]. by intros [|].
  - split; [|done].
    rewrite model_dump_exclude_unset_lookup_None by done. split; auto.
Qed.

Lemma optional_dump_set {A} (validate : value → option A) (inj : A → value)
    k (f : field A) (d : dict) :
  (∀ v, validate (inj v) = Some v) → (∀ v, inj v ≠ VNull) →
  d !! k = None →
  optional validate k (dump_set inj k f d) = Some f.
Proof.
  intros Hval Hinj Hd. unfold optional. destruct f as [|[v|]]; simpl.
  - by rewrite Hd.
  - rewrite lookup_insert_eq. specialize (Hinj v). specialize (Hval v).
    destruct (inj v); try done; by rewrite Hval.
  - by rewrite lookup_insert_eq.
Qed.

Lemma optional_ext {A} (validate : value → option A) k (kw kw' : dict) :
  kw' !! k = kw !! k → optional validate k kw' = optional validate k kw.
Proof. unfold optional. by intros ->. Qed.

(** X13. A dumped model validates as the model it was dumped from: for
    [Product] (with its timestamps as [datetime] values, whatever the
    default factories would return), for [ProductCreate], and for
    [ProductUpdate], where the dump without the unset fields gives back the
    same update, with the same fields set and the same fields null. *)
Theorem model_dump_round_trip :
  (∀ p g, Product.init g (Product.model_dump p) = Some p)
  ∧ (∀ pc, ProductCreate.init (ProductCreate.model_dump pc) = Some pc)
  ∧ (∀ pu,
      ProductUpdate.init (ProductUpdate.model_dump_exclude_unset pu) = Some pu).
Proof.
  split_and!.
  - intros p g. apply Product_init_Some.
    unfold required, with_default, Product.model_dump.
    split_and!;
      repeat first [ rewrite lookup_insert_eq
                   | rewrite lookup_insert_ne by done ];
      simpl;
      rewrite ?validate_str_str, ?validate_float_float, ?validate_int_int,
        ?validate_bool_bool, ?validate_list_str_list, ?validate_datetime_date;
      reflexivity.
  - intros pc. apply ProductCreate_init_Some.
    unfold required, with_default, ProductCreate.model_dump.
    split_and!;
      repeat first [ rewrite lookup_insert_eq
                   | rewrite lookup_insert_ne by done ];
      simpl;
      rewrite ?validate_str_str, ?validate_float_float, ?validate_int_int,
        ?validate_bool_bool, ?validate_list_str_list;
      reflexivity.
  - intros pu. unfold ProductUpdate.init.
    assert (Hfield : ∀ {A} (validate : value → option A) (inj : A → value)
              k (f : field A) (d : dict),
              (∀ v, validate (inj v) = Some v) → (∀ v, inj v ≠ VNull) →
              d !! k = None →
              ∀ d', d' !! k = dump_set inj k f d !! k →
              optional validate k d' = Some f).
    { intros A validate inj k f d Hval Hinj Hd d' Hd'.
      rewrite (optional_ext _ _ _ _ Hd'). by apply optional_dump_set. }
    unfold ProductUpdate.model_dump_exclude_unset.
    repeat match goal with
    | |- (optional ?validate ?k ?d ≫= _) = _ =>
        erewrite (Hfield _ validate _ k);
          [ cbn [mbind option_bind]
          | first [ apply validate_str_str | apply validate_float_float
                  | apply validate_int_int | apply validate_bool_bool
                  | apply validate_list_str_list ]
          | done
          | | repeat (rewrite dump_set_lookup_ne by done); reflexivity ];
          [|repeat (rewrite dump_set_lookup_ne by done); apply lookup_empty]
    end.
    by destruct pu.
Qed.

End dump_properties.

(** ** The status checks *)

Section status_properties.
Context `{Pydantic.Lib} `{!Datetime.Lib}.
Import Pydantic.
Implicit Types (db : collection) (d : dict).

(** The loop succeeds exactly when its body succeeds on each item. *)
Lemma for_each_inr f l l' :
  for_each f l = inr l' ↔ Forall2 (λ x y, f x = inr y) l l'.
Proof.
  revert l'. induction l as [|x l IH]; intros l'; simpl.
  - split; [intros [= <-]; constructor|by intros ->%Forall2_nil_inv_l].
  - destruct (f x) as [e|y] eqn:Hx.
    + split; [done|]. intros (y & k & Hy & _ & _)%Forall2_cons_inv_l.
      congruence.
    + destruct (for_each f l) as [e|ys] eqn:Hl.
      * split; [done|]. intros (y' & k & _ & Hk & ->)%Forall2_cons_inv_l.
        by apply IH in Hk.
      * split.
        -- intros [= <-]. constructor; [done|]. by apply IH.
        -- intros (y' & k & Hy & Hk & ->)%Forall2_cons_inv_l.
           apply IH in Hk. congruence.
Qed.

(** A failure of the loop is the failure of its body on an item. *)
Lemma for_each_inl f l e :
  for_each f l = inl e → ∃ x, x ∈ l ∧ f x = inl e.
Proof.
  induction l as [|x l IH]; simpl; [done|].
  destruct (f x) as [e'|y] eqn:Hx.
  - intros [= <-]. exists x. split; [by left|done].
  - destruct (for_each f l) as [e'|ys]; [|done].
    intros [= <-]. destruct (IH eq_refl) as (x' & Hin & Hx').
    exists x'. split; [by right|done].
Qed.





(** X15. What [get_status_checks] returns and when it fails. It succeeds
    exactly when each of the first 1000 documents has a timestamp that, if
    it is a string, is ISO text; it then returns these documents in order,
    without their [_id], each with its timestamp as a [datetime] and its
    other keys unchanged. Otherwise it fails with the [KeyError] of a
    document without timestamp or the [ValueError] of a string that is not
    ISO text, and the request is a server error. *)
Theorem get_status_checks_result db :
  ((∃ l, get_status_checks db = inr l)
   ↔ ∀ d, d ∈ take 1000 db →
       ∃ v, d !! "timestamp" = Some v
            ∧ ∀ s, v = VStr s → is_Some (Datetime.fromisoformat s))
  ∧ (∀ l, get_status_checks db = inr l →
       length l = (1000 `min` length db)%nat
       ∧ ∀ i d', l !! i = Some d' →
           ∃ d, db !! i = Some d
                ∧ d' !! "_id" = None
                ∧ (∀ k, k ≠ "timestamp" → k ≠ "_id" → d' !! k = d !! k)
                ∧ (∀ s, d !! "timestamp" = Some (VStr s) →
                     ∃ t, Datetime.fromisoformat s = Some t
                          ∧ d' !! "timestamp" = Some (VDate t))
                ∧ (∀ v, d !! "timestamp" = Some v → (∀ s, v ≠ VStr s) →
                     d' !! "timestamp" = Some v))
  ∧ (∀ e, get_status_checks db = inl e →
       (e = ServerError "KeyError" ∨ e = ServerError "ValueError")
       ∧ status e = 500).
Proof.
  assert (Hconv : ∀ d d', convert_timestamp (delete "_id" d) = inr d' →
            d' !! "_id" = None
            ∧ (∀ k, k ≠ "timestamp" → k ≠ "_id" → d' !! k = d !! k)
            ∧ (∀ s, d !! "timestamp" = Some (VStr s) →
                 ∃ t, Datetime.fromisoformat s = Some t
                      ∧ d' !! "timestamp" = Some (VDate t))
            ∧ (∀ v, d !! "timestamp" = Some v → (∀ s, v ≠ VStr s) →
                 d' !! "timestamp" = Some v)).
  { intros d d'. unfold convert_timestamp.
    rewrite lookup_delete_ne by done.
    destruct (d !! "timestamp") as [v|] eqn:Hts; [|done].
    assert (Hsame : d' = delete "_id" d →
              d' !! "_id" = None
              ∧ (∀ k, k ≠ "timestamp" → k ≠ "_id" → d' !! k = d !! k)
              ∧ d' !! "timestamp" = Some v).
    { intros ->. rewrite lookup_delete_eq. split_and!; [done| |].
      - intros k _ Hk. by rewrite lookup_delete_ne.
      - by rewrite lookup_delete_ne. }
    destruct v as [| | | |s| | |];
      try (intros [= <-]; destruct (Hsame eq_refl) as (? & ? & ?);
           split_and!; [done|done|intros s' [=]|by intros v' [= <-] _]).
    destruct (Datetime.fromisoformat s) as [t|] eqn:Hiso; [|done].
    intros [= <-]. split_and!.
    - by rewrite lookup_insert_ne, lookup_delete_eq.
    - intros k Hk1 Hk2. by rewrite lookup_insert_ne, lookup_delete_ne.
    - intros s' [= <-]. exists t. by rewrite lookup_insert_eq.
    - intros v' [= <-] Hv. by destruct (Hv s). }
  unfold get_status_checks, find_to_list. split_and!.
  - split.
    + intros [l Hl%for_each_inr] d Hd.
      apply (list_elem_of_fmap_2 (delete "_id")) in Hd.
      apply list_elem_of_lookup in Hd as [i Hi].
      destruct (Forall2_lookup_l _ _ _ _ _ Hl Hi) as (d' & _ & Hd').
      unfold convert_timestamp in Hd'.
      rewrite lookup_delete_ne in Hd' by done.
      destruct (d !! "timestamp") as [v|]; [|done].
      exists v. split; [done|]. intros s ->.
      by destruct (Datetime.fromisoformat s).
    + intros Hall.
      destruct (for_each convert_timestamp (delete "_id" <$> take 1000 db))
        as [e|l] eqn:Hl; [|eauto].
      apply for_each_inl in Hl as (x & Hx & Hfail).
      apply list_elem_of_fmap in Hx as (d & -> & Hd).
      destruct (Hall d Hd) as (v & Hv & Hiso).
      unfold convert_timestamp in Hfail.
      rewrite lookup_delete_ne, Hv in Hfail by done.
      destruct v; try done.
      destruct (Hiso _ eq_refl) as [t Ht]. by rewrite Ht in Hfail.
  - intros l Hl%for_each_inr. split.
    + apply Forall2_length in Hl.
      by rewrite <- Hl, length_fmap, length_take.
    + intros i d' Hi.
      destruct (Forall2_lookup_r _ _ _ _ _ Hl Hi) as (x & Hx & Hd').
      rewrite list_lookup_fmap in Hx.
      apply fmap_Some in Hx as (d & Hd & ->).
      apply lookup_take_Some in Hd as [Hd _].
      exists d. split; [done|]. by apply Hconv.
  - intros e (x & _ & Hfail)%for_each_inl.
    unfold convert_timestamp in Hfail.
    destruct (x !! "timestamp") as [[| | | |s| | |]|]; try done.
    + destruct (Datetime.fromisoformat s); [done|].
      injection Hfail as <-. auto.
    + injection Hfail as <-. auto.
Qed.

End status_properties.

(** ** The further properties on concrete requests *)

Section further_scenario.
Import Reference Scenario.

Lemma present_catalogue_1 : exists_product "0" (catalogue 1).
Proof.
  exists (document 0). split; [rewrite catalogue_eq; by left|reflexivity].
Qed.

Lemma absent_1_catalogue_1 : ¬ exists_product "1" (catalogue 1).
Proof.
  apply find_one_None. rewrite catalogue_eq. vm_compute. reflexivity.
Qed.

Lemma distinct_catalogue_1 : NoDup (ids (catalogue 1)).
Proof.
  rewrite catalogue_eq. change (NoDup [VStr "0"]). apply NoDup_singleton.
Qed.

Lemma login_default :
  admin_login environ "admin" "admin123" login_time =
    inr (admin_token, "admin").
Proof. reflexivity. Qed.

Lemma init_null_name_body :
  ProductUpdate.init {["name" := VNull; "id" := VStr "other"]} =
    Some ProductUpdate.null_name.
Proof. vm_compute. reflexivity. Qed.


(** The token of the login, accepted at the time of the login. *)
Lemma verify_token_accepts_witness :
  verify_token environ login_time admin_token = inr (VStr "admin")
  ∧ ∃ claims,
      Jwt.parse admin_token =
        Some (claims, Jwt.hs256 (SECRET_KEY environ) claims)
      ∧ claims !! "sub" = Some (VStr "admin").
Proof.
  split; [reflexivity|].
  destruct (verify_token_accepts environ login_time admin_token (VStr "admin")
              eq_refl) as (claims & Hparse & Hsub & _).
  exists claims. split; [exact Hparse|exact Hsub].
Defined.

(** The token of the login, accepted at the login, is accepted or expired
    later: accepted at second 200, expired at second 86500. *)
Lemma verify_token_over_time_witness :
  login_time ≤ seconds 86500
  ∧ verify_token environ login_time admin_token = inr (VStr "admin")
  ∧ (verify_token environ (seconds 86500) admin_token = inr (VStr "admin")
     ∨ verify_token environ (seconds 86500) admin_token = inl TokenExpired).
Proof.
  assert (Hle : login_time ≤ seconds 86500) by (vm_compute; discriminate).
  split; [exact Hle|]. split; [reflexivity|].
  destruct (verify_token_over_time environ login_time (seconds 86500)
              admin_token Hle) as (Hlater & _).
  apply Hlater. reflexivity.
Defined.

(** The login of the default configuration, at second 100. *)
Lemma admin_login_token_witness :
  "admin" = ADMIN_USERNAME environ
  ∧ "admin123" = ADMIN_PASSWORD environ
  ∧ ∃ token,
      admin_login environ "admin" "admin123" (seconds 100) =
        inr (token, "admin")
      ∧ verify_token environ (seconds (100 + 86400)) token = inl TokenExpired.
Proof.
  split; [reflexivity|]. split; [reflexivity|].
  destruct (admin_login_token environ "admin" "admin123" 100)
    as (_ & _ & Hlogin).
  destruct (Hlogin eq_refl eq_refl) as (token & Htoken & Hverify).
  exists token. split; [exact Htoken|]. exact (Hverify 86400).
Defined.

(** [GET /api/admin/verify] with the token of the login, 50 seconds
    later. *)
Lemma login_then_protected_route_witness :
  admin_login environ "admin" "admin123" login_time =
    inr (admin_token, "admin")
  ∧ protected_route environ (Some ("Bearer", admin_token))
      (login_time + seconds 50) GET_admin_verify [] =
      (inr (Json {["valid" := VBool true; "username" := VStr "admin"]}), []).
Proof.
  split; [exact login_default|].
  exact (proj1 (login_then_protected_route environ "admin" "admin123"
                  login_time admin_token "admin" (seconds 50)
                  GET_admin_verify []) login_default).
Defined.




(** The deletion of the product of the store of one product. *)
Lemma delete_product_removes_first_witness :
  exists_product "0" (catalogue 1)
  ∧ (delete_product "0" (VStr "admin") (catalogue 1)).1 =
      inr {["message" := VStr "Producto eliminado exitosamente"]}
  ∧ S (length (delete_product "0" (VStr "admin") (catalogue 1)).2) =
      length (catalogue 1).
Proof.
  split; [exact present_catalogue_1|].
  destruct (delete_product_removes_first "0" (VStr "admin") (catalogue 1)
              present_catalogue_1) as (Hmsg & Hlen & _).
  split; [exact Hmsg|exact Hlen].
Defined.

(** The ids of the store of one product, after a second creation and
    after a deletion. *)
Lemma ids_stay_distinct_witness :
  NoDup (ids (catalogue 1))
  ∧ ¬ exists_product "1" (catalogue 1)
  ∧ NoDup (ids (catalogue 2))
  ∧ NoDup (ids (delete_product "0" (VStr "admin") (catalogue 1)).2).
Proof.
  split; [exact distinct_catalogue_1|].
  split; [exact absent_1_catalogue_1|].
  destruct (ids_stay_distinct (catalogue 1) distinct_catalogue_1)
    as (Hcreate & _ & Hdelete).
  split.
  - exact (Hcreate product (VStr "admin") (factories_of 1) 1%N
             absent_1_catalogue_1).
  - exact (Hdelete "0" (VStr "admin")).
Defined.

(** The product of the store of one product, deleted, then read. *)
Lemma delete_then_get_product_witness :
  NoDup (ids (catalogue 1))
  ∧ get_product "0" (delete_product "0" (VStr "admin") (catalogue 1)).2 =
      inl NotFound.
Proof.
  split; [exact distinct_catalogue_1|].
  exact (delete_then_get_product "0" (VStr "admin") (catalogue 1)
           distinct_catalogue_1).
Defined.

(** The body [{"name": null, "id": "other"}]: the name is written as
    null, the id is dropped. *)
Lemma ProductUpdate_written_keys_witness :
  ProductUpdate.init {["name" := VNull; "id" := VStr "other"]} =
    Some ProductUpdate.null_name
  ∧ ProductUpdate.model_dump_exclude_unset ProductUpdate.null_name !! "name" =
      Some VNull
  ∧ ProductUpdate.model_dump_exclude_unset ProductUpdate.null_name !! "id" =
      None.
Proof.
  split; [exact init_null_name_body|].
  split.
  - destruct (ProductUpdate_written_keys _ _ "name" init_null_name_body)
      as (_ & Hnull).
    apply Hnull; [|reflexivity].
    unfold ProductUpdate.model_fields. apply list_elem_of_here.
  - destruct (ProductUpdate_written_keys _ _ "id" init_null_name_body)
      as (Hnone & _).
    apply Hnone. left. unfold ProductUpdate.model_fields.
    rewrite !not_elem_of_cons. split_and!; try discriminate.
    apply not_elem_of_nil.
Defined.


(** A collection whose only document has no timestamp. *)
Lemma get_status_checks_result_witness :
  get_status_checks [{["client_name" := VStr "web"]}] =
    inl (ServerError "KeyError")
  ∧ status (ServerError "KeyError") = 500.
Proof.
  split; [reflexivity|].
  destruct (get_status_checks_result [{["client_name" := VStr "web"]}])
    as (_ & _ & Hfail).
  exact (proj2 (Hfail (ServerError "KeyError") eq_refl)).
Defined.

End further_scenario.
